(** * go-audit: the event correlation and enrichment core (parser.go)

    A shallow embedding of [parser.go] and the properties its specification
    states about it.

    Go strings and byte slices are sequences of bytes: they are modelled by
    [string] (a list of 8-bit [ascii]).  Go's [int] is modelled by [Z]; every
    index computed in [parser.go] lies between [-1] and [len(data) + 3], so
    the 64-bit wrap-around of [int] is never reached by the index arithmetic
    (it is written out where it matters, in [strconv.Atoi]).  A slice
    expression whose bounds are out of range is a run-time panic in Go: it is
    modelled by the outcome [Panic]. *)

From Stdlib Require Import ZArith NArith Lia Bool List String Ascii.
From Stdlib Require Import DecimalString DecimalN.
From stdpp Require Import base option gmap strings.

Set Warnings "-clear-no-such-hyp".

Local Open Scope string_scope.
Local Open Scope Z_scope.

(** ** Outcomes of a Go computation *)

Inductive Res (A : Type) : Type :=
| Ok (a : A)      (* normal return *)
| Panic           (* run-time panic: slice bounds out of range *)
| OutOfFuel.      (* the model's loop bound was used up (shown unreachable) *)
Arguments Ok {A} a.
Arguments Panic {A}.
Arguments OutOfFuel {A}.

Definition res_bind {A B} (r : Res A) (k : A -> Res B) : Res B :=
  match r with
  | Ok a => k a
  | Panic => Panic
  | OutOfFuel => OutOfFuel
  end.

Notation "x <- e ;; k" := (res_bind e (fun x => k))
  (at level 20, e at level 99, k at level 200, only parsing).

(** ** Go string primitives *)

Module Go.

Definition len (s : string) : Z := Z.of_nat (String.length s).

Fixpoint take (n : nat) (s : string) : string :=
  match n, s with
  | S n', String c s' => String c (take n' s')
  | _, _ => EmptyString
  end.

Fixpoint drop (n : nat) (s : string) : string :=
  match n, s with
  | S n', String _ s' => drop n' s'
  | _, _ => s
  end.

(** [s[lo:hi]]: in range iff [0 <= lo <= hi <= len(s)], a panic otherwise. *)
Definition slice (s : string) (lo hi : Z) : Res string :=
  if (0 <=? lo) && (lo <=? hi) && (hi <=? len s)
  then Ok (take (Z.to_nat (hi - lo)) (drop (Z.to_nat lo) s))
  else Panic.

(** [s[lo:]] and [s[:hi]]. *)
Definition slice_from (s : string) (lo : Z) : Res string := slice s lo (len s).
Definition slice_to (s : string) (hi : Z) : Res string := slice s 0 hi.

(** [strings.HasPrefix(s, p)]. *)
Fixpoint HasPrefix (s p : string) {struct p} : bool :=
  match p, s with
  | EmptyString, _ => true
  | String a p', String b s' => if Ascii.eqb a b then HasPrefix s' p' else false
  | String _ _, EmptyString => false
  end.

(** [strings.Index(s, substr)] / [bytes.Index]: offset of the first
    instance of [substr] in [s], [-1] when there is none. *)
Fixpoint Index (s substr : string) : Z :=
  if HasPrefix s substr then 0
  else match s with
       | EmptyString => -1
       | String _ s' =>
           let r := Index s' substr in
           if r <? 0 then -1 else r + 1
       end.

(** [strings.IndexByte(s, c)]. *)
Fixpoint IndexByte (s : string) (c : ascii) : Z :=
  match s with
  | EmptyString => -1
  | String b s' =>
      if Ascii.eqb b c then 0
      else let r := IndexByte s' c in
           if r <? 0 then -1 else r + 1
  end.

End Go.

(** ** Models of the Go standard library functions [parser.go] calls *)

Module strconv.

Definition digit (c : ascii) : option Z :=
  let n := Z.of_N (N_of_ascii c) in
  if (48 <=? n) && (n <=? 57) then Some (n - 48) else None.

Definition maxUint64 : Z := 2 ^ 64 - 1.
Definition maxInt64 : Z := 2 ^ 63 - 1.

(** Fast path of [Atoi] (fewer than 19 bytes): no overflow is possible.
    [None] is a syntax error. *)
Fixpoint atoiSmall (s : string) (n : Z) : option Z :=
  match s with
  | EmptyString => Some n
  | String ch s' =>
      match digit ch with
      | None => None
      | Some d => atoiSmall s' (n * 10 + d)
      end
  end.

Inductive uintResult := UVal (n : Z) | USyntax | URange.

(** The loop of [ParseUint(s, 10, 64)] on [uint64], wrap-around written
    out.  In base 10 a letter is a digit value [>= base], a syntax error
    like any other non-digit. *)
Fixpoint parseUintLoop (s : string) (n : Z) : uintResult :=
  match s with
  | EmptyString => UVal n
  | String c s' =>
      match digit c with
      | None => USyntax
      | Some d =>
          if n >=? maxUint64 / 10 + 1 then URange
          else
            let n10 := (n * 10) mod 2 ^ 64 in
            let n1 := (n10 + d) mod 2 ^ 64 in
            if (n1 <? n10) || (n1 >? maxUint64) then URange
            else parseUintLoop s' n1
      end
  end.

Definition ParseUint (s : string) : uintResult :=
  match s with
  | EmptyString => USyntax
  | _ => parseUintLoop s 0
  end.

(** Value returned by [ParseInt(s, 10, 0)] on a 64-bit platform (the
    error is dropped: [parseAuditHeader] ignores it). *)
Definition ParseInt (s : string) : Z :=
  match s with
  | EmptyString => 0
  | String c0 s1 =>
      let neg := Ascii.eqb c0 "-" in
      let s' := if Ascii.eqb c0 "+" || neg then s1 else s in
      match ParseUint s' with
      | USyntax => 0
      | r =>
          let un := match r with UVal n => n | _ => maxUint64 end in
          let cutoff := 2 ^ 63 in
          if negb neg && (un >=? cutoff) then cutoff - 1
          else if neg && (un >? cutoff) then - cutoff
          else if neg then - un else un
      end
  end.

(** Value returned by [strconv.Atoi(s)]. *)
Definition Atoi (s : string) : Z :=
  let sLen := Go.len s in
  if (0 <? sLen) && (sLen <? 19) then
    match s with
    | EmptyString => 0
    | String c0 s1 =>
        let signed := Ascii.eqb c0 "-" || Ascii.eqb c0 "+" in
        let s' := if signed then s1 else s in
        if signed && (Go.len s' <? 1) then 0
        else match atoiSmall s' 0 with
             | None => 0
             | Some n => if Ascii.eqb c0 "-" then - n else n
             end
    end
  else ParseInt s.

(** Decimal text of a non-negative number, as [strconv.Itoa] and the
    kernel's [%u] print it. *)
Definition Itoa (n : N) : string := NilEmpty.string_of_uint (N.to_uint n).

End strconv.

(** ** Constants of parser.go *)

Definition SYSCALL : Z := 1300.
Definition CONFIG_CHANGE : Z := 1305.
Definition SOCKADDR : Z := 1306.
Definition CWD : Z := 1307.
Definition EXECVE : Z := 1309.
Definition HEADER_MIN_LENGTH : Z := 7.
Definition HEADER_START_POS : Z := 6.
Definition COMPLETE_AFTER : Z := 2 * 1000000000. (* time.Second * 2, in ns *)
Definition SOCKADDR_LENGTH : Z := 34.

Definition headerEndChar : string := ")".
Definition headerSepChar : ascii := ":".
Definition spaceChar : ascii := " ".

(** ** parseAuditHeader

    The netlink message is mutated in place ([msg.Data] loses its header):
    the model returns the new [msg.Data] next to the two results. *)

Definition parseAuditHeader (msgData : string) : Res (string * Z * string) :=
  let headerStop := Go.Index msgData headerEndChar in
  (* If the position the header appears to stop is less than the minimum
     length of a header, bail out *)
  if headerStop <? HEADER_MIN_LENGTH then Ok (EmptyString, 0, msgData)
  else
    header <- Go.slice_to msgData headerStop ;;
    pre <- Go.slice_to header HEADER_START_POS ;;
    if String.eqb pre "audit(" then
      let sep := Go.IndexByte header headerSepChar in
      time <- Go.slice header HEADER_START_POS sep ;;
      seqText <- Go.slice_from header (sep + 1) ;;
      let seq := strconv.Atoi seqText in
      (* Remove the header from data *)
      data' <- Go.slice_from msgData (headerStop + 3) ;;
      Ok (time, seq, data')
    else Ok (EmptyString, 0, msgData).

Module hex.

(** [fromHexChar] through [reverseHexTable]: [None] is the table's 0xff. *)
Definition fromHexChar (c : ascii) : option N :=
  let n := N_of_ascii c in
  if (48 <=? n)%N && (n <=? 57)%N then Some (n - 48)%N
  else if (97 <=? n)%N && (n <=? 102)%N then Some (n - 97 + 10)%N
  else if (65 <=? n)%N && (n <=? 70)%N then Some (n - 65 + 10)%N
  else None.

Inductive error :=
| InvalidByteError (c : ascii)
| ErrLength.

(** [hex.DecodeString(s)]: the bytes decoded before the error, and the
    error ([None] is [nil]). *)
Fixpoint DecodeString (src : string) : list N * option error :=
  match src with
  | EmptyString => ([], None)
  | String p EmptyString =>
      match fromHexChar p with
      | None => ([], Some (InvalidByteError p))
      | Some _ => ([], Some ErrLength)
      end
  | String p (String q src') =>
      match fromHexChar p, fromHexChar q with
      | None, _ => ([], Some (InvalidByteError p))
      | Some _, None => ([], Some (InvalidByteError q))
      | Some a, Some b =>
          let r := DecodeString src' in
          (N.lor (N.shiftl a 4) b :: fst r, snd r)
      end
  end.

End hex.

Module net.

Definition hexDigit (n : N) : ascii :=
  if (n <? 10)%N then ascii_of_N (48 + n) else ascii_of_N (97 + (n - 10)).

Fixpoint hexString (b : list N) : string :=
  match b with
  | [] => EmptyString
  | x :: b' =>
      String (hexDigit (N.shiftr x 4)) (String (hexDigit (N.land x 15)) (hexString b'))
  end.

Definition v4InV6Prefix : list N := [0; 0; 0; 0; 0; 0; 0; 0; 0; 0; 255; 255]%N.

(** [ip.To4()]: [None] is [nil]. *)
Definition To4 (ip : list N) : option (list N) :=
  if (length ip =? 4)%nat then Some ip
  else if (length ip =? 16)%nat && bool_decide (firstn 12 ip = v4InV6Prefix)
       then Some (skipn 12 ip)
       else None.

(** [net.IP(ip).String()].  [ip6] stands for Go's IPv6 text form of a
    16-byte address that is not an IPv4-mapped one. *)
Definition IP_String (ip6 : list N -> string) (ip : list N) : string :=
  if (length ip =? 0)%nat then "<nil>"
  else
    match To4 ip with
    | Some [a; b; c; d] =>
        (strconv.Itoa a ++ "." ++ strconv.Itoa b ++ "." ++
         strconv.Itoa c ++ "." ++ strconv.Itoa d)%string
    | _ =>
        if negb (length ip =? 16)%nat then String "?" (hexString ip)
        else ip6 ip
    end.

End net.

(** ** Data model *)

(** [AuditMessage].  [Type] is a [uint16]. *)
Record AuditMessage := mkAuditMessage {
  Type_ : Z;
  Data : string;
  Seq : Z;
  AuditTime : string;
}.

(** [AuditMessageGroup].  [Msgs] holds pointers to messages; no function of
    [parser.go] writes to a message after [NewAuditMessage] built it, so the
    messages are stored by value.  [CompleteAfter] is in nanoseconds. *)
Record AuditMessageGroup := mkAuditMessageGroup {
  amgSeq : Z;
  amgAuditTime : string;
  CompleteAfter : Z;
  Msgs : list AuditMessage;
  UidMap : gmap string string;
  DnsMap : gmap string string;
  Syscall : string;
  gotSaddr : bool;
  gotDNS : bool;
}.

Definition set_Msgs (v : list AuditMessage) (g : AuditMessageGroup) :=
  mkAuditMessageGroup (amgSeq g) (amgAuditTime g) (CompleteAfter g) v
    (UidMap g) (DnsMap g) (Syscall g) (gotSaddr g) (gotDNS g).
Definition set_UidMap (v : gmap string string) (g : AuditMessageGroup) :=
  mkAuditMessageGroup (amgSeq g) (amgAuditTime g) (CompleteAfter g) (Msgs g)
    v (DnsMap g) (Syscall g) (gotSaddr g) (gotDNS g).
Definition set_DnsMap (v : gmap string string) (g : AuditMessageGroup) :=
  mkAuditMessageGroup (amgSeq g) (amgAuditTime g) (CompleteAfter g) (Msgs g)
    (UidMap g) v (Syscall g) (gotSaddr g) (gotDNS g).
Definition set_Syscall (v : string) (g : AuditMessageGroup) :=
  mkAuditMessageGroup (amgSeq g) (amgAuditTime g) (CompleteAfter g) (Msgs g)
    (UidMap g) (DnsMap g) v (gotSaddr g) (gotDNS g).
Definition set_gotSaddr (v : bool) (g : AuditMessageGroup) :=
  mkAuditMessageGroup (amgSeq g) (amgAuditTime g) (CompleteAfter g) (Msgs g)
    (UidMap g) (DnsMap g) (Syscall g) v (gotDNS g).
Definition set_gotDNS (v : bool) (g : AuditMessageGroup) :=
  mkAuditMessageGroup (amgSeq g) (amgAuditTime g) (CompleteAfter g) (Msgs g)
    (UidMap g) (DnsMap g) (Syscall g) (gotSaddr g) v.

(** ** The program

    The collaborators that live outside [parser.go] are an interface: the
    system's user database behind [user.LookupId], the DNS cache [c] with
    its method [Get], and Go's IPv6 text form.  [sys] is whatever state
    those collaborators keep. *)

Class Collaborators := {
  sys : Type;
  (** [user.LookupId(uid)]: [Some username] when [err == nil]. *)
  LookupId : string -> sys -> option string * sys;
  (** [c.Get(ip)]: the host bytes and whether [err == nil]. *)
  cGet : string -> sys -> (string * bool) * sys;
  (** Text form of a 16-byte address that is not IPv4-mapped. *)
  ip6String : list N -> string;
}.

Section Program.

Context {collab : Collaborators}.

(** Everything outside the group that the code reads or writes: the
    package variable [uidMap], the error logger [el], the collaborators'
    state and the wall clock.  [getUsernameCalls] and [cGetCalls] record
    the arguments of the calls made so far (instrumentation, never read by
    the program). *)
Record World := mkWorld {
  uidMap : gmap string string;
  el : list hex.error;
  env : sys;
  now : Z;
  getUsernameCalls : list string;
  cGetCalls : list string;
}.

(** Modelled from the spec: the error logger [el] is declared outside
    [parser.go]; the specification says that a hex-decode failure is logged
    and never aborts processing.  [el.Printf] appends the error to the log
    and returns. *)
Definition el_Printf (e : hex.error) (w : World) : World :=
  mkWorld (uidMap w) (el w ++ [e])%list (env w) (now w)
    (getUsernameCalls w) (cGetCalls w).

(** Gets a username for a user id. *)
Definition getUsername (uid : string) (w : World) : string * World :=
  let calls := (getUsernameCalls w ++ [uid])%list in
  match uidMap w !! uid with
  | Some lUser =>
      (lUser, mkWorld (uidMap w) (el w) (env w) (now w) calls (cGetCalls w))
  | None =>
      let r := LookupId uid (env w) in
      let uname := match fst r with
                   | Some lUser => lUser
                   | None => "UNKNOWN_USER"
                   end in
      (uname, mkWorld (<[uid := uname]> (uidMap w)) (el w) (snd r) (now w)
                calls (cGetCalls w))
  end.

Definition parseAddr (saddr : string) (w : World) : Res (string * World) :=
  family <- Go.slice saddr 0 4 ;;
  if String.eqb family "0200" then
    hx <- Go.slice saddr 8 16 ;;
    let r := hex.DecodeString hx in
    let w' := match snd r with
              | Some err => el_Printf err w
              | None => w
              end in
    Ok (net.IP_String ip6String (fst r), w')
  else Ok (EmptyString, w).

(** Find the first [saddr=] in a message and do a lookup. *)
Definition mapDns (amg : AuditMessageGroup) (am : AuditMessage) (w : World)
  : Res (string * string * AuditMessageGroup * World) :=
  let data := Data am in
  let start := Go.Index data "saddr=" in
  if start <? 0 then Ok (EmptyString, EmptyString, amg, w)
  else
    let start := start + 6 in
    rest <- Go.slice_from data start ;;
    let end0 := Go.IndexByte rest spaceChar in
    let end_ := if end0 <? 0 then Go.len data - start else end0 in
    if (end0 <? 0) && (end_ >? SOCKADDR_LENGTH)
    then Ok (EmptyString, EmptyString, amg, w)
    else
      saddr <- Go.slice data start (start + end_) ;;
      let amg := set_gotSaddr true amg in
      pa <- parseAddr saddr w ;;
      let ip := fst pa in
      let w := snd pa in
      let r := cGet ip (env w) in
      let host := fst (fst r) in
      let w := mkWorld (uidMap w) (el w) (snd r) (now w)
                 (getUsernameCalls w) (cGetCalls w ++ [ip])%list in
      let amg := if snd (fst r)
                 then set_DnsMap (<[ip := host]> (DnsMap amg)) (set_gotDNS true amg)
                 else amg in
      Ok (ip, host, amg, w).

(** One turn of the [for] loop of [mapUids] per unit of [fuel]. *)
Fixpoint mapUids_loop (fuel : nat) (data : string)
    (amg : AuditMessageGroup) (w : World) : Res (AuditMessageGroup * World) :=
  match fuel with
  | O => OutOfFuel
  | S fuel' =>
      let start := Go.Index data "uid=" in
      if start <? 0 then Ok (amg, w)
      else
        let start := start + 4 in
        rest <- Go.slice_from data start ;;
        let end0 := Go.IndexByte rest spaceChar in
        let end_ := if end0 <? 0 then Go.len data - start else end0 in
        if (end0 <? 0) && (end_ >? 5) then Ok (amg, w)
        else
          uid <- Go.slice data start (start + end_) ;;
          gw <-
            match UidMap amg !! uid with
            | Some _ => Ok (amg, w)
            | None =>
                arg <- Go.slice data start (start + end_) ;;
                let r := getUsername arg w in
                Ok (set_UidMap (<[uid := fst r]> (UidMap amg)) amg, snd r)
            end ;;
          let next := start + end_ + 1 in
          if next >=? Go.len data then Ok gw
          else
            data' <- Go.slice_from data next ;;
            mapUids_loop fuel' data' (fst gw) (snd gw)
  end.

(** Find all [uid=] occurrences in a message and add the username to the
    [UidMap].  Every turn of the loop drops at least five bytes of [data],
    so the [len(data) + 1] turns allowed here are never used up
    ([mapUids_loop_steps]). *)
Definition mapUids (amg : AuditMessageGroup) (am : AuditMessage) (w : World)
  : Res (AuditMessageGroup * World) :=
  mapUids_loop (S (String.length (Data am))) (Data am) amg w.

Definition findSyscall (amg : AuditMessageGroup) (am : AuditMessage)
  : Res AuditMessageGroup :=
  let data := Data am in
  let start := Go.Index data "syscall=" in
  if start <? 0 then Ok amg
  else
    let start := start + 8 in
    rest <- Go.slice_from data start ;;
    let end0 := Go.IndexByte rest spaceChar in
    let end_ := if end0 <? 0 then Go.len data - start else end0 in
    if (end0 <? 0) && (end_ >? 5) then Ok amg
    else
      v <- Go.slice data start (start + end_) ;;
      Ok (set_Syscall v amg).

(** Add a new message to the current message group. *)
Definition AddMessage (amg : AuditMessageGroup) (am : AuditMessage) (w : World)
  : Res (AuditMessageGroup * World) :=
  let amg := set_Msgs (Msgs amg ++ [am])%list amg in
  let t := Type_ am in
  if (t =? EXECVE) || (t =? CWD) then Ok (amg, w)
  else if t =? SOCKADDR then
    r <- mapDns amg am w ;; Ok (snd (fst r), snd r)
  else if t =? SYSCALL then
    amg <- findSyscall amg am ;; mapUids amg am w
  else mapUids amg am w.

(** Creates a new message group from the details parsed from the message. *)
Definition NewAuditMessageGroup (am : AuditMessage) (w : World)
  : Res (AuditMessageGroup * World) :=
  let amg := mkAuditMessageGroup (Seq am) (AuditTime am)
               (now w + COMPLETE_AFTER) [] ∅ ∅ EmptyString false false in
  AddMessage amg am w.

(** Creates a new go-audit message from a netlink message (its header
    type and its data). *)
Definition NewAuditMessage (nlmType : Z) (nlmData : string) : Res AuditMessage :=
  r <- parseAuditHeader nlmData ;;
  Ok (mkAuditMessage nlmType (snd r) (snd (fst r)) (fst (fst r))).

(** A run of [AddMessage] over the messages that arrive for a group. *)
Fixpoint AddMessages (amg : AuditMessageGroup) (ams : list AuditMessage)
    (w : World) : Res (AuditMessageGroup * World) :=
  match ams with
  | [] => Ok (amg, w)
  | am :: ams' => r <- AddMessage amg am w ;; AddMessages (fst r) ams' (snd r)
  end.

(** A group's life: created from its first message, then fed the rest. *)
Definition runGroup (am : AuditMessage) (ams : list AuditMessage) (w : World)
  : Res (AuditMessageGroup * World) :=
  r <- NewAuditMessageGroup am w ;; AddMessages (fst r) ams (snd r).

End Program.

(** ** Deterministic fakes of the collaborators, used to run the model *)

Definition fakeLookupId (uid : string) (s : unit) : option string * unit :=
  (if String.eqb uid "0" then Some "root"
   else if String.eqb uid "1000" then Some "alice" else None, s).

Definition fakeGet (ip : string) (s : unit) : (string * bool) * unit :=
  (if String.eqb ip "127.0.0.1" then ("localhost", true) else (EmptyString, false), s).

Definition fakes : Collaborators :=
  {| sys := unit; LookupId := fakeLookupId; cGet := fakeGet;
     ip6String := fun _ => EmptyString |}.

Definition w0 : @World fakes := @mkWorld fakes ∅ [] tt 0 [] [].

Definition g0 : AuditMessageGroup :=
  mkAuditMessageGroup 100 "1464163771.720" 0 [] ∅ ∅ EmptyString false false.

Definition msg (t : Z) (data : string) : AuditMessage :=
  mkAuditMessage t data 100 "1464163771.720".

(** ** Definitions used to state the properties *)

(** Horner evaluation of a decimal numeral, most significant digit first. *)
Fixpoint horner (d : Decimal.uint) (acc : Z) : Z :=
  match d with
  | Decimal.Nil => acc
  | Decimal.D0 l => horner l (acc * 10 + 0)
  | Decimal.D1 l => horner l (acc * 10 + 1)
  | Decimal.D2 l => horner l (acc * 10 + 2)
  | Decimal.D3 l => horner l (acc * 10 + 3)
  | Decimal.D4 l => horner l (acc * 10 + 4)
  | Decimal.D5 l => horner l (acc * 10 + 5)
  | Decimal.D6 l => horner l (acc * 10 + 6)
  | Decimal.D7 l => horner l (acc * 10 + 7)
  | Decimal.D8 l => horner l (acc * 10 + 8)
  | Decimal.D9 l => horner l (acc * 10 + 9)
  end.

(** The text of a well-formed header up to, and without, its closing
    parenthesis. *)
Definition headerText (ts : string) (seq : N) : string :=
  ("audit(" ++ ts ++ ":" ++ strconv.Itoa seq)%string.

(** The scan that [mapDns], [mapUids] and [findSyscall] each write out (the
    specification's Field Extractor): the value after the first [key], up
    to the next space, or up to the end of the text when no space follows
    and no more than [bound] bytes remain.  The lemmas [findSyscall_extract],
    [mapDns_extract] and [mapUids_loop_S] relate it to the code. *)
Definition extract (key : string) (bound : Z) (data : string) : option string :=
  let start := Go.Index data key in
  if start <? 0 then None
  else
    let rest := Go.drop (Z.to_nat (start + Go.len key)) data in
    let e := Go.IndexByte rest spaceChar in
    if e <? 0 then (if Go.len rest >? bound then None else Some rest)
    else Some (Go.take (Z.to_nat e) rest).

(** Number of calls with argument [k] in a record of calls. *)
Fixpoint ncalls (k : string) (calls : list string) : nat :=
  match calls with
  | [] => 0
  | x :: calls' => ((if String.eqb x k then 1 else 0) + ncalls k calls')%nat
  end.

(** 1 when [k] is a key of [m'] and was not one of [m], 0 otherwise. *)
Definition fresh (k : string) (m m' : gmap string string) : nat :=
  match m !! k, m' !! k with
  | None, Some _ => 1%nat
  | _, _ => 0%nat
  end.

(** Message texts made of uid-bearing fields: each field is some text [p]
    without [uid=], then [uid=], then a value [v] without a space.  All
    fields but possibly the last are followed by a space. *)
Inductive ending :=
| Tail (t : string)        (* text without any uid= *)
| Last (p v : string).     (* a last field that runs to the end of the text *)

Definition endText (e : ending) : string :=
  match e with
  | Tail t => t
  | Last p v => (p ++ "uid=" ++ v)%string
  end.

Definition endKeys (e : ending) : list string :=
  match e with
  | Tail _ => []
  | Last _ v => [v]
  end.

Definition endOk (e : ending) : Prop :=
  match e with
  | Tail t => Go.Index t "uid=" = -1
  | Last p v =>
      Go.Index (p ++ "uid=") "uid=" = Go.len p /\
      Go.IndexByte v spaceChar = -1 /\ Go.len v <= 5
  end.

Definition fieldOk (f : string * string) : Prop :=
  Go.Index (fst f ++ "uid=") "uid=" = Go.len (fst f) /\
  Go.IndexByte (snd f) spaceChar = -1.

Fixpoint uidText (fs : list (string * string)) (e : ending) : string :=
  match fs with
  | [] => endText e
  | f :: fs' => (fst f ++ "uid=" ++ snd f ++ " " ++ uidText fs' e)%string
  end.

Section Helpers.

Context {collab : Collaborators}.

(** Lines 191-194 of [mapUids]: resolve [uid] unless the group has it. *)
Definition recordUid (uid : string) (amg : AuditMessageGroup) (w : World)
  : AuditMessageGroup * World :=
  match UidMap amg !! uid with
  | Some _ => (amg, w)
  | None =>
      let r := getUsername uid w in
      (set_UidMap (<[uid := fst r]> (UidMap amg)) amg, snd r)
  end.

(** Lines 143-148 of [mapDns]: look [ip] up and record a hit. *)
Definition lookupHost (ip : string) (amg : AuditMessageGroup) (w : World)
  : string * string * AuditMessageGroup * World :=
  let r := cGet ip (env w) in
  let host := fst (fst r) in
  let w' := mkWorld (uidMap w) (el w) (snd r) (now w)
              (getUsernameCalls w) (cGetCalls w ++ [ip])%list in
  let amg' := if snd (fst r)
              then set_DnsMap (<[ip := host]> (DnsMap amg)) (set_gotDNS true amg)
              else amg in
  (ip, host, amg', w').

(** The message types whose text [AddMessage] scans for uids. *)
Definition scansUids (t : Z) : bool :=
  negb ((t =? EXECVE) || (t =? CWD) || (t =? SOCKADDR)).

End Helpers.

Section Relations.

Context {collab : Collaborators}.

(** What a run of uid extraction may change, from [(g, w)] to [(g', w')]:
    the group's [UidMap] only grows, and [getUsername] was called exactly
    once for each new key and not at all for any other text. *)
Record uid_step (g : AuditMessageGroup) (w : World)
    (g' : AuditMessageGroup) (w' : World) : Prop := mk_uid_step {
  us_sub : UidMap g ⊆ UidMap g';
  us_calls : forall k,
    ncalls k (getUsernameCalls w') =
      (ncalls k (getUsernameCalls w) + fresh k (UidMap g) (UidMap g'))%nat;
}.

(** [mapUids] touches nothing but the [UidMap], the identity cache and
    the user database. *)
Record uid_frame (g : AuditMessageGroup) (w : World)
    (g' : AuditMessageGroup) (w' : World) : Prop := mk_uid_frame {
  uf_group : g' = set_UidMap (UidMap g') g;
  uf_el : el w' = el w;
  uf_now : now w' = now w;
  uf_cget : cGetCalls w' = cGetCalls w;
}.

End Relations.

(** A message with three uid fields, and a group that has already mapped
    the uid 1000. *)
Definition uid_msg : AuditMessage := msg SYSCALL "uid=1000 euid=1000 suid=0".

(** The scenario of the specification: three messages that share the
    sequence number 100. *)
Definition scenario_first : AuditMessage := msg SYSCALL "syscall=59 uid=0".
Definition scenario_rest : list AuditMessage :=
  [msg EXECVE "argc=1 a0=ls"; msg CWD "cwd=/root"].

(** ** Definitions used to state the further properties *)

Section UidRuns.

Context {collab : Collaborators}.

(** The states a run of the loop of [mapUids] goes through: any number of
    [recordUid] steps, each for a value without a space. *)
Inductive uid_run : AuditMessageGroup -> World ->
                    AuditMessageGroup -> World -> Prop :=
| uid_run_done g w : uid_run g w g w
| uid_run_step uid g w g' w' :
    Go.IndexByte uid spaceChar = -1 ->
    uid_run (fst (recordUid uid g w)) (snd (recordUid uid g w)) g' w' ->
    uid_run g w g' w'.

End UidRuns.

(** The condition under which [parseAddr] goes out of range. *)
Definition shortAddr (saddr : string) : Prop :=
  Go.len saddr < 4 \/ (Go.HasPrefix saddr "0200" = true /\ Go.len saddr < 16).

(** A datagram and a group used to run the model. *)
Definition cached_world : @World fakes :=
  @mkWorld fakes {["1000" := "alice"]} [] tt 0 [] [].

(** Dotted-decimal text of four bytes. *)
Definition dotted (a b c d : N) : string :=
  (strconv.Itoa a ++ "." ++ strconv.Itoa b ++ "." ++
   strconv.Itoa c ++ "." ++ strconv.Itoa d)%string.

(** The [Syscall] field after one more message: a SYSCALL message with an
    accepted [syscall=] value overwrites it, any other message keeps it. *)
Definition syscallAfter (s : string) (am : AuditMessage) : string :=
  if Type_ am =? SYSCALL then
    match extract "syscall=" 5 (Data am) with
    | Some v => v
    | None => s
    end
  else s.

(** * Facts about the Go string primitives *)

#[local] Arguments String.append !_ _ / : simpl nomatch.

Section GoFacts.

Import Go.

Lemma app_Empty (b : string) : (EmptyString ++ b)%string = b.
Proof. reflexivity. Qed.

Lemma app_String c (a b : string) : (String c a ++ b)%string = String c (a ++ b).
Proof. reflexivity. Qed.

Lemma len_nonneg s : 0 <= len s.
Proof. unfold len; lia. Qed.

Lemma len_String c s : len (String c s) = len s + 1.
Proof. unfold len; cbn [String.length]; lia. Qed.

Lemma len_app a b : len (a ++ b) = len a + len b.
Proof.
  unfold len; induction a as [|c a IH];
    rewrite ?app_Empty, ?app_String; cbn [String.length]; lia.
Qed.

Lemma app_assoc_s (a b c : string) : ((a ++ b) ++ c = a ++ (b ++ c))%string.
Proof. induction a as [|x a IH]; cbn; [reflexivity | now rewrite IH]. Qed.

Lemma take_app_length a b : take (String.length a) (a ++ b) = a.
Proof. induction a as [|c a IH]; cbn; [now destruct b | now rewrite IH]. Qed.

Lemma drop_app_length a b : drop (String.length a) (a ++ b) = b.
Proof. induction a as [|c a IH]; cbn; [reflexivity | exact IH]. Qed.

Lemma take_all a : take (String.length a) a = a.
Proof. induction a as [|c a IH]; cbn; [reflexivity | now rewrite IH]. Qed.

Lemma length_drop n s : String.length (drop n s) = (String.length s - n)%nat.
Proof.
  revert s; induction n as [|n IH]; intros [|c s]; cbn; try reflexivity.
  apply IH.
Qed.

(** [(p ++ v ++ r)[len p : len p + len v] = v]. *)
Lemma slice_app p v r :
  slice (p ++ v ++ r) (len p) (len p + len v) = Ok v.
Proof.
  unfold slice. rewrite !len_app.
  pose proof (len_nonneg p); pose proof (len_nonneg v); pose proof (len_nonneg r).
  replace ((0 <=? len p) && (len p <=? len p + len v)
           && (len p + len v <=? len p + (len v + len r))) with true
    by (symmetry; rewrite !andb_true_iff, !Z.leb_le; lia).
  replace (len p + len v - len p) with (len v) by lia.
  unfold len; rewrite !Nat2Z.id, drop_app_length, take_app_length.
  reflexivity.
Qed.

Lemma slice_from_app p r : slice_from (p ++ r) (len p) = Ok r.
Proof.
  unfold slice_from. rewrite len_app.
  pose proof (slice_app p r EmptyString) as H.
  replace (r ++ EmptyString)%string with r in H; [exact H|].
  clear; induction r as [|c r IH]; cbn; [reflexivity | now rewrite <- IH].
Qed.

Lemma slice_to_app p r : slice_to (p ++ r) (len p) = Ok p.
Proof.
  unfold slice_to.
  pose proof (slice_app EmptyString p r) as H. rewrite app_Empty in H.
  replace (len EmptyString) with 0 in H by reflexivity.
  exact H.
Qed.

Lemma slice_Ok s lo hi :
  0 <= lo -> lo <= hi -> hi <= len s ->
  slice s lo hi = Ok (take (Z.to_nat (hi - lo)) (drop (Z.to_nat lo) s)).
Proof.
  intros; unfold slice.
  replace ((0 <=? lo) && (lo <=? hi) && (hi <=? len s)) with true; [reflexivity|].
  symmetry; rewrite !andb_true_iff, !Z.leb_le; lia.
Qed.

Lemma slice_fuel s lo hi : slice s lo hi <> OutOfFuel.
Proof.
  unfold slice.
  destruct ((0 <=? lo) && (lo <=? hi) && (hi <=? len s)); discriminate.
Qed.

Lemma HasPrefix_app sub r : HasPrefix (sub ++ r) sub = true.
Proof.
  induction sub as [|c sub IH]; cbn; [reflexivity|].
  now rewrite Ascii.eqb_refl.
Qed.

Lemma HasPrefix_app_long x r sub :
  (String.length sub <= String.length x)%nat ->
  HasPrefix (x ++ r) sub = HasPrefix x sub.
Proof.
  revert x; induction sub as [|c sub IH]; intros x Hl; [now destruct x|].
  destruct x as [|b x]; cbn in Hl; [lia|].
  cbn. destruct (Ascii.eqb c b); [apply IH; lia | reflexivity].
Qed.

Lemma HasPrefix_length s sub :
  HasPrefix s sub = true -> (String.length sub <= String.length s)%nat.
Proof.
  revert s; induction sub as [|c sub IH]; intros s H; cbn; [lia|].
  destruct s as [|b s]; cbn in H; [discriminate|].
  destruct (Ascii.eqb c b); [|discriminate].
  apply IH in H; cbn; lia.
Qed.

Lemma Index_String c s sub :
  Index (String c s) sub =
    if HasPrefix (String c s) sub then 0
    else if Index s sub <? 0 then -1 else Index s sub + 1.
Proof. destruct sub; reflexivity. Qed.

Lemma Index_bounds s sub :
  Index s sub = -1 \/ (0 <= Index s sub /\ Index s sub + len sub <= len s).
Proof.
  induction s as [|c s IH].
  - cbn [Index]. destruct (HasPrefix EmptyString sub) eqn:E; [|now left].
    right. apply HasPrefix_length in E. unfold len. cbn in *. lia.
  - rewrite Index_String.
    destruct (HasPrefix (String c s) sub) eqn:E.
    + right. apply HasPrefix_length in E. unfold len. lia.
    + destruct (Z.ltb_spec (Index s sub) 0); [now left|].
      right. rewrite len_String. lia.
Qed.

(** If the first [sub] of [p ++ sub] is the one at the end, it is the
    first [sub] of [p ++ sub ++ r] too. *)
Lemma Index_app p sub r :
  Index (p ++ sub) sub = len p -> Index (p ++ sub ++ r) sub = len p.
Proof.
  induction p as [|c p IH]; intros H.
  - rewrite app_Empty.
    destruct sub as [|b sub]; [now destruct r|].
    rewrite app_String, Index_String, <- app_String, HasPrefix_app. reflexivity.
  - rewrite !app_String in *. rewrite Index_String in *.
    rewrite len_String in *. pose proof (len_nonneg p).
    assert (E : HasPrefix (String c (p ++ sub)) sub = false).
    { destruct (HasPrefix (String c (p ++ sub)) sub); [lia | reflexivity]. }
    rewrite E in H.
    assert (E2 : HasPrefix (String c (p ++ sub ++ r)) sub = false).
    { replace (String c (p ++ sub ++ r)) with (String c (p ++ sub) ++ r)%string
        by (rewrite app_String, app_assoc_s; reflexivity).
      rewrite HasPrefix_app_long; [exact E|].
      cbn [String.length]. clear. induction p; rewrite ?app_Empty, ?app_String;
        cbn [String.length]; lia. }
    rewrite E2.
    destruct (Z.ltb_spec (Index (p ++ sub) sub) 0); [lia|].
    rewrite IH by lia.
    destruct (Z.ltb_spec (len p) 0); lia.
Qed.

Lemma IndexByte_bounds s c :
  IndexByte s c = -1 \/ (0 <= IndexByte s c < len s).
Proof.
  induction s as [|b s IH]; [now left|].
  cbn [IndexByte]. rewrite len_String. pose proof (len_nonneg s).
  destruct (Ascii.eqb b c); [right; lia|].
  destruct (Z.ltb_spec (IndexByte s c) 0); [now left | right; lia].
Qed.

Lemma IndexByte_app v c r :
  IndexByte v c = -1 -> IndexByte (v ++ String c r) c = len v.
Proof.
  induction v as [|b v IH]; intros H;
    rewrite ?app_Empty, ?app_String in *; cbn [IndexByte] in *.
  - now rewrite Ascii.eqb_refl.
  - rewrite len_String. pose proof (len_nonneg v).
    destruct (Ascii.eqb b c); [discriminate|].
    destruct (IndexByte_bounds v c) as [E|E].
    + rewrite IH by exact E. destruct (Z.ltb_spec (len v) 0); lia.
    + destruct (Z.ltb_spec (IndexByte v c) 0); lia.
Qed.

Lemma IndexByte_app_none a b c :
  IndexByte a c = -1 -> IndexByte b c = -1 -> IndexByte (a ++ b) c = -1.
Proof.
  induction a as [|x a IH]; intros Ha Hb;
    rewrite ?app_Empty, ?app_String in *; cbn [IndexByte] in *; [exact Hb|].
  destruct (Ascii.eqb x c); [discriminate|].
  destruct (IndexByte_bounds a c) as [E|E].
  - now rewrite IH.
  - destruct (Z.ltb_spec (IndexByte a c) 0); lia.
Qed.

Lemma IndexByte_app_skip a b c :
  IndexByte a c = -1 -> 0 <= IndexByte b c ->
  IndexByte (a ++ b) c = len a + IndexByte b c.
Proof.
  induction a as [|x a IH]; intros Ha Hb;
    rewrite ?app_Empty, ?app_String in *; cbn [IndexByte] in *.
  - change (len EmptyString) with 0. lia.
  - rewrite len_String. pose proof (len_nonneg a).
    destruct (Ascii.eqb x c); [discriminate|].
    destruct (IndexByte_bounds a c) as [E|E].
    + rewrite IH by assumption. destruct (Z.ltb_spec (len a + IndexByte b c) 0); lia.
    + destruct (Z.ltb_spec (IndexByte a c) 0); lia.
Qed.

(** [bytes.Index] with a one-byte needle is [IndexByte]. *)
Lemma Index_byte s c : Index s (String c EmptyString) = IndexByte s c.
Proof.
  induction s as [|b s IH]; [reflexivity|].
  rewrite Index_String. cbn [HasPrefix IndexByte].
  rewrite (Ascii.eqb_sym c b).
  destruct (Ascii.eqb b c); [reflexivity | now rewrite IH].
Qed.

End GoFacts.

(** * Facts about the decimal conversions *)

Section DecimalFacts.

Import strconv.

Lemma horner_mono d acc : 0 <= acc -> acc <= horner d acc.
Proof.
  revert acc; induction d; intros acc H; cbn [horner]; try lia;
    (etransitivity; [|apply IHd]; lia).
Qed.

Lemma of_uint_acc_horner d acc :
  Z.pos (Pos.of_uint_acc d acc) = horner d (Z.pos acc).
Proof.
  revert acc; induction d; intros acc; cbn [Pos.of_uint_acc horner];
    [reflexivity | rewrite IHd; f_equal; lia ..].
Qed.

Lemma of_uint_horner d : Z.of_N (Pos.of_uint d) = horner d 0.
Proof.
  induction d; cbn [Pos.of_uint horner]; [reflexivity | exact IHd | ..];
    cbn [Z.of_N]; rewrite of_uint_acc_horner; reflexivity.
Qed.

Lemma horner_to_uint (n : N) : horner (N.to_uint n) 0 = Z.of_N n.
Proof.
  rewrite <- of_uint_horner.
  change (Pos.of_uint (N.to_uint n)) with (N.of_uint (N.to_uint n)).
  now rewrite DecimalN.Unsigned.of_to.
Qed.

Lemma atoiSmall_string_of_uint d acc :
  atoiSmall (NilEmpty.string_of_uint d) acc = Some (horner d acc).
Proof.
  revert acc; induction d; intros acc;
    cbn [NilEmpty.string_of_uint horner atoiSmall]; [reflexivity | apply IHd ..].
Qed.

Lemma parseUintLoop_step c d s n :
  digit c = Some d -> 0 <= d <= 9 -> 0 <= n -> n * 10 + d < 2 ^ 63 ->
  parseUintLoop (String c s) n = parseUintLoop s (n * 10 + d).
Proof.
  intros Hc Hd Hn Hlt. cbn [parseUintLoop]. rewrite Hc.
  assert (Hcut : 2 ^ 63 <= (maxUint64 / 10 + 1) * 10) by (vm_compute; discriminate).
  assert (H64 : 2 ^ 63 < 2 ^ 64) by (vm_compute; reflexivity).
  set (cutoff := maxUint64 / 10 + 1) in *.
  destruct (Z.geb_spec n cutoff); [lia|].
  rewrite (Z.mod_small (n * 10)) by lia.
  rewrite (Z.mod_small (n * 10 + d)) by lia.
  destruct (Z.ltb_spec (n * 10 + d) (n * 10)); [lia|].
  unfold maxUint64.
  destruct (Z.gtb_spec (n * 10 + d) (2 ^ 64 - 1)); [lia|].
  reflexivity.
Qed.

Lemma parseUintLoop_string_of_uint d acc :
  0 <= acc -> horner d acc < 2 ^ 63 ->
  parseUintLoop (NilEmpty.string_of_uint d) acc = UVal (horner d acc).
Proof.
  revert acc; induction d; intros acc Hacc Hlt;
    cbn [NilEmpty.string_of_uint horner] in *; [reflexivity | ..];
    (erewrite parseUintLoop_step;
     [apply IHd; [lia | exact Hlt]
     | reflexivity | lia | lia
     | eapply Z.le_lt_trans; [apply horner_mono; lia | exact Hlt] ]).
Qed.

(** No byte of a decimal numeral is anything but a digit. *)
Lemma IndexByte_string_of_uint d c :
  digit c = None -> Go.IndexByte (NilEmpty.string_of_uint d) c = -1.
Proof.
  intros Hc; induction d; cbn [NilEmpty.string_of_uint Go.IndexByte];
    [reflexivity | ..];
    (match goal with
     | |- context [Ascii.eqb ?a c] =>
         destruct (Ascii.eqb_spec a c) as [<-|_]; [discriminate Hc|]
     end; rewrite IHd; reflexivity).
Qed.

Lemma to_uint_nonnil (n : N) : N.to_uint n <> Decimal.Nil.
Proof.
  destruct n as [|p]; [discriminate|].
  cbn [N.to_uint]. apply DecimalPos.Unsigned.to_uint_nonnil.
Qed.

(** The text [Itoa n] starts with a digit. *)
Lemma Itoa_head (n : N) :
  exists c s, Itoa n = String c s /\ digit c <> None.
Proof.
  unfold Itoa. pose proof (to_uint_nonnil n) as H.
  destruct (N.to_uint n); [congruence | ..];
    cbn [NilEmpty.string_of_uint]; eexists _, _; (split; [reflexivity | discriminate]).
Qed.

(** [strconv.Atoi] reads back what [strconv.Itoa] printed, for every
    number that fits Go's [int]. *)
Lemma Atoi_Itoa (n : N) : Z.of_N n < 2 ^ 63 -> Atoi (Itoa n) = Z.of_N n.
Proof.
  intros Hlt.
  destruct (Itoa_head n) as (c & s & E & Hc).
  assert (Hm : Ascii.eqb c "-" = false).
  { destruct (Ascii.eqb_spec c "-") as [->|]; [now elim Hc | reflexivity]. }
  assert (Hp : Ascii.eqb c "+" = false).
  { destruct (Ascii.eqb_spec c "+") as [->|]; [now elim Hc | reflexivity]. }
  unfold Atoi. destruct ((0 <? Go.len (Itoa n)) && (Go.len (Itoa n) <? 19)).
  - rewrite E, Hm, Hp. cbn [orb andb]. rewrite <- E. unfold Itoa.
    rewrite atoiSmall_string_of_uint. apply horner_to_uint.
  - unfold ParseInt. rewrite E, Hm, Hp. cbn [orb andb negb].
    unfold ParseUint. rewrite <- E. unfold Itoa.
    rewrite parseUintLoop_string_of_uint; rewrite ?horner_to_uint; try lia.
    destruct (Z.geb_spec (Z.of_N n) (2 ^ 63)); [lia | reflexivity].
Qed.

End DecimalFacts.

(** * The header parser *)

Section HeaderParser.

Import Go.

Lemma digit_rparen : strconv.digit ")" = None.
Proof. reflexivity. Qed.

Lemma digit_colon : strconv.digit ":" = None.
Proof. reflexivity. Qed.

Lemma headerText_no_rparen ts seq :
  IndexByte ts ")" = -1 -> IndexByte (headerText ts seq) ")" = -1.
Proof.
  intros H. unfold headerText.
  repeat (apply IndexByte_app_none; try reflexivity; try assumption).
  apply IndexByte_string_of_uint, digit_rparen.
Qed.

Lemma headerText_sep ts seq :
  IndexByte ts ":" = -1 -> IndexByte (headerText ts seq) ":" = 6 + len ts.
Proof.
  intros H. unfold headerText.
  pose proof (len_nonneg ts).
  assert (E : IndexByte (ts ++ ":" ++ strconv.Itoa seq) ":" = len ts)
    by exact (IndexByte_app ts ":" (strconv.Itoa seq) H).
  rewrite IndexByte_app_skip; rewrite ?E; [reflexivity | reflexivity | lia].
Qed.

Lemma len_headerText ts seq : 8 <= len (headerText ts seq).
Proof.
  unfold headerText. rewrite !len_app.
  destruct (Itoa_head seq) as (c & s & -> & _). rewrite (len_String c s).
  pose proof (len_nonneg ts); pose proof (len_nonneg s).
  change (len "audit(") with 6. change (len ":") with 1. lia.
Qed.

(** C2.  A message that begins with the well-formed header
    [audit(<ts>:<seq>): ] (a timestamp without [:] or [)], the decimal
    text of a sequence number that fits Go's [int]) has its first [)] at
    an offset of at least 7; [parseAuditHeader] returns exactly [<ts>] and
    the integer [<seq>], and leaves as payload the input without the
    header and the three bytes [): ] that follow it. *)
Theorem parseAuditHeader_wellformed (ts : string) (seq : N) (rest : string) :
  IndexByte ts ")" = -1 ->
  IndexByte ts ":" = -1 ->
  Z.of_N seq < 2 ^ 63 ->
  let msgData := (headerText ts seq ++ "): " ++ rest)%string in
  HEADER_MIN_LENGTH <= Index msgData headerEndChar /\
  parseAuditHeader msgData = Ok (ts, Z.of_N seq, rest).
Proof.
  intros Hr Hc Hseq msgData.
  pose proof (len_headerText ts seq) as Hlen.
  assert (Hstop : Index msgData headerEndChar = len (headerText ts seq)).
  { unfold headerEndChar, msgData. rewrite Index_byte.
    change ("): " ++ rest)%string with (String ")" (": " ++ rest)).
    apply IndexByte_app, headerText_no_rparen, Hr. }
  split; [rewrite Hstop; unfold HEADER_MIN_LENGTH; lia|].
  unfold parseAuditHeader. rewrite Hstop.
  destruct (Z.ltb_spec (len (headerText ts seq)) HEADER_MIN_LENGTH) as [Hlt|_];
    [unfold HEADER_MIN_LENGTH in Hlt; lia|].
  unfold msgData at 1. rewrite slice_to_app. cbn [res_bind].
  assert (Hpre : slice_to (headerText ts seq) HEADER_START_POS = Ok "audit(").
  { unfold headerText. apply (slice_to_app "audit("). }
  rewrite Hpre. cbn [res_bind]. rewrite String.eqb_refl.
  rewrite headerText_sep by exact Hc.
  assert (Htime : slice (headerText ts seq) HEADER_START_POS (6 + len ts) = Ok ts).
  { unfold headerText. apply (slice_app "audit("). }
  rewrite Htime. cbn [res_bind].
  assert (Hseqtxt : slice_from (headerText ts seq) (6 + len ts + 1)
                    = Ok (strconv.Itoa seq)).
  { unfold headerText. rewrite <- !app_assoc_s.
    replace (6 + len ts + 1) with (len (("audit(" ++ ts) ++ ":")%string)
      by (rewrite !len_app; reflexivity).
    apply slice_from_app. }
  rewrite Hseqtxt. cbn [res_bind]. rewrite Atoi_Itoa by exact Hseq.
  assert (Hdata : slice_from msgData (len (headerText ts seq) + 3) = Ok rest).
  { unfold msgData. rewrite <- app_assoc_s.
    replace (len (headerText ts seq) + 3)
      with (len (headerText ts seq ++ "): ")%string)
      by (rewrite len_app; reflexivity).
    apply slice_from_app. }
  rewrite Hdata. reflexivity.
Qed.

Lemma parseAuditHeader_wellformed_witness :
  parseAuditHeader "audit(1464163771.720:20): arch=c000003e syscall=59"
  = Ok ("1464163771.720", 20, "arch=c000003e syscall=59").
Proof.
  exact (proj2 (parseAuditHeader_wellformed "1464163771.720" 20
                  "arch=c000003e syscall=59"
                  eq_refl eq_refl eq_refl)).
Defined.

End HeaderParser.

(** * The field scan *)

Section ExtractFacts.

Import Go.

Lemma length_take n s :
  (n <= String.length s)%nat -> String.length (take n s) = n.
Proof.
  revert s; induction n as [|n IH]; intros [|c s] H; cbn in *; try lia.
  now rewrite IH by lia.
Qed.

Lemma slice_from_Ok s lo :
  0 <= lo <= len s -> slice_from s lo = Ok (drop (Z.to_nat lo) s).
Proof.
  intros H. unfold slice_from. rewrite slice_Ok by lia. f_equal.
  replace (Z.to_nat (len s - lo)) with (String.length (drop (Z.to_nat lo) s)).
  - apply take_all.
  - rewrite length_drop. unfold len in *. lia.
Qed.

Lemma len_drop s lo :
  0 <= lo <= len s -> len (drop (Z.to_nat lo) s) = len s - lo.
Proof. intros H. unfold len in *. rewrite length_drop. lia. Qed.

Lemma len_take s n : 0 <= n <= len s -> len (take (Z.to_nat n) s) = n.
Proof. intros H. unfold len in *. rewrite length_take; lia. Qed.

Lemma drop_drop n m s : drop n (drop m s) = drop (m + n) s.
Proof.
  revert s; induction m as [|m IH]; intros s; [reflexivity|].
  destruct s as [|c s]; [now destruct n|]. cbn. apply IH.
Qed.

(** What the three scanning functions have in common, in the shape the
    code has: the slices are in range, and the value found is the one
    [extract] describes. *)
Lemma scan_bind {A} (key : string) (k bound : Z) (data : string)
    (none : Res A) (some : string -> Z -> Res A) :
  len key = k ->
  (let start := Index data key in
   if start <? 0 then none
   else
     let start := start + k in
     rest <- slice_from data start ;;
     let end0 := IndexByte rest spaceChar in
     let end_ := if end0 <? 0 then len data - start else end0 in
     if (end0 <? 0) && (end_ >? bound) then none
     else v <- slice data start (start + end_) ;; some v end_)
  = match extract key bound data with
    | None => none
    | Some v => some v (len v)
    end.
Proof.
  intros <-. unfold extract. cbv zeta.
  destruct (Z.ltb_spec (Index data key) 0) as [|Hi]; [reflexivity|].
  destruct (Index_bounds data key) as [E|[_ Hb]]; [lia|].
  pose proof (len_nonneg key).
  rewrite slice_from_Ok by lia. cbn [res_bind].
  set (s := Index data key + len key) in *.
  set (rest := drop (Z.to_nat s) data).
  assert (Hrest : len rest = len data - s) by (apply len_drop; lia).
  destruct (IndexByte_bounds rest spaceChar) as [E|E].
  - rewrite E. cbn [Z.ltb Z.compare andb]. rewrite <- Hrest.
    destruct (len rest >? bound); [reflexivity|].
    replace (s + len rest) with (len data) by lia.
    fold (slice_from data s). rewrite slice_from_Ok by lia.
    reflexivity.
  - destruct (Z.ltb_spec (IndexByte rest spaceChar) 0); [lia|].
    cbn [andb]. rewrite slice_Ok by lia. cbn [res_bind].
    replace (s + IndexByte rest spaceChar - s) with (IndexByte rest spaceChar) by lia.
    fold rest. rewrite len_take by lia. reflexivity.
Qed.

Lemma extract_Some key bound data v :
  extract key bound data = Some v ->
  0 <= Index data key /\
  Index data key + len key + len v <= len data /\
  slice data (Index data key + len key) (Index data key + len key + len v) = Ok v.
Proof.
  unfold extract. cbv zeta.
  destruct (Z.ltb_spec (Index data key) 0) as [|Hi]; [discriminate|].
  destruct (Index_bounds data key) as [E|[_ Hb]]; [lia|].
  pose proof (len_nonneg key).
  set (s := Index data key + len key) in *.
  set (rest := drop (Z.to_nat s) data).
  assert (Hrest : len rest = len data - s) by (apply len_drop; lia).
  destruct (IndexByte_bounds rest spaceChar) as [E|E].
  - rewrite E. cbn [Z.ltb Z.compare].
    destruct (len rest >? bound); [discriminate|].
    intros [= <-]. repeat split; try lia.
    replace (s + len rest) with (len data) by lia.
    apply slice_from_Ok. lia.
  - destruct (Z.ltb_spec (IndexByte rest spaceChar) 0); [lia|].
    intros [= <-]. rewrite len_take by lia. repeat split; try lia.
    rewrite slice_Ok by lia. do 2 f_equal. lia.
Qed.

Lemma extract_absent key bound data :
  Index data key = -1 -> extract key bound data = None.
Proof. intros H. unfold extract. now rewrite H. Qed.

Lemma length_app_s (a b : string) :
  String.length (a ++ b) = (String.length a + String.length b)%nat.
Proof.
  induction a as [|c a IH]; rewrite ?app_Empty, ?app_String; cbn [String.length];
    [reflexivity | now rewrite IH].
Qed.

Lemma drop_key pre key r :
  drop (Z.to_nat (len pre + len key)) (pre ++ key ++ r) = r.
Proof.
  rewrite <- app_assoc_s.
  replace (Z.to_nat (len pre + len key)) with (String.length (pre ++ key)).
  - apply drop_app_length.
  - rewrite length_app_s. unfold len. lia.
Qed.

(** A value that a space ends is extracted whole, whatever its length. *)
Lemma extract_spaced key bound pre v rest :
  Index (pre ++ key) key = len pre ->
  IndexByte v spaceChar = -1 ->
  extract key bound (pre ++ key ++ v ++ " " ++ rest) = Some v.
Proof.
  intros Hp Hv. unfold extract. cbv zeta.
  rewrite (Index_app pre key) by exact Hp.
  pose proof (len_nonneg pre).
  destruct (Z.ltb_spec (len pre) 0); [lia|].
  rewrite drop_key.
  change (" " ++ rest)%string with (String spaceChar rest).
  rewrite IndexByte_app by exact Hv.
  pose proof (len_nonneg v).
  destruct (Z.ltb_spec (len v) 0); [lia|].
  unfold len. rewrite Nat2Z.id, take_app_length. reflexivity.
Qed.

(** A value that runs to the end of the text is extracted only within
    the bound. *)
Lemma extract_last key bound pre v :
  Index (pre ++ key) key = len pre ->
  IndexByte v spaceChar = -1 ->
  extract key bound (pre ++ key ++ v) =
    if len v >? bound then None else Some v.
Proof.
  intros Hp Hv. unfold extract. cbv zeta.
  rewrite (Index_app pre key) by exact Hp.
  pose proof (len_nonneg pre).
  destruct (Z.ltb_spec (len pre) 0); [lia|].
  rewrite drop_key, Hv. reflexivity.
Qed.

Lemma findSyscall_extract amg am :
  findSyscall amg am =
    match extract "syscall=" 5 (Data am) with
    | None => Ok amg
    | Some v => Ok (set_Syscall v amg)
    end.
Proof.
  unfold findSyscall.
  exact (scan_bind "syscall=" 8 5 (Data am) (Ok amg)
           (fun v _ => Ok (set_Syscall v amg)) eq_refl).
Qed.

End ExtractFacts.

(** * The group correlator *)

Section ProgramFacts.

Context {collab : Collaborators}.
Import Go.

(** ** Uid extraction *)

Lemma mapUids_loop_S fuel data amg w :
  mapUids_loop (S fuel) data amg w =
    match extract "uid=" 5 data with
    | None => Ok (amg, w)
    | Some uid =>
        let gw := recordUid uid amg w in
        let next := Index data "uid=" + 4 + len uid + 1 in
        if next >=? len data then Ok gw
        else mapUids_loop fuel (drop (Z.to_nat next) data) (fst gw) (snd gw)
    end.
Proof.
  cbn [mapUids_loop].
  etransitivity;
    [exact (scan_bind "uid=" 4 5 data (Ok (amg, w))
              (fun uid end_ =>
                 let start := Index data "uid=" + 4 in
                 gw <-
                   match UidMap amg !! uid with
                   | Some _ => Ok (amg, w)
                   | None =>
                       arg <- slice data start (start + end_) ;;
                       let r := getUsername arg w in
                       Ok (set_UidMap (<[uid := fst r]> (UidMap amg)) amg, snd r)
                   end ;;
                 let next := start + end_ + 1 in
                 if next >=? len data then Ok gw
                 else
                   data' <- slice_from data next ;;
                   mapUids_loop fuel data' (fst gw) (snd gw))
              eq_refl) |].
  cbv beta zeta.
  destruct (extract "uid=" 5 data) as [uid|] eqn:E; [|reflexivity].
  apply extract_Some in E as (Hi & Hb & Hs).
  change (len "uid=") with 4 in *.
  rewrite Hs.
  unfold recordUid.
  destruct (UidMap amg !! uid); cbn [res_bind fst snd];
    (destruct (Z.geb_spec (Index data "uid=" + 4 + len uid + 1) (len data));
     [reflexivity|];
     rewrite slice_from_Ok by (pose proof (len_nonneg uid); lia);
     reflexivity).
Qed.


Lemma ncalls_app k l l' :
  ncalls k (l ++ l')%list = (ncalls k l + ncalls k l')%nat.
Proof. induction l as [|x l IH]; cbn [ncalls app]; [reflexivity | lia]. Qed.

Lemma fresh_same k m : fresh k m m = 0%nat.
Proof. unfold fresh. now destruct (m !! k). Qed.

Lemma fresh_trans k (m1 m2 m3 : gmap string string) :
  m1 ⊆ m2 -> m2 ⊆ m3 ->
  fresh k m1 m3 = (fresh k m1 m2 + fresh k m2 m3)%nat.
Proof.
  intros H12 H23. unfold fresh.
  destruct (m1 !! k) as [x|] eqn:E1.
  - rewrite (lookup_weaken _ _ _ _ E1 H12). reflexivity.
  - destruct (m2 !! k) as [y|] eqn:E2.
    + rewrite (lookup_weaken _ _ _ _ E2 H23). reflexivity.
    + now destruct (m3 !! k).
Qed.

Lemma fresh_insert k uid u (m : gmap string string) :
  m !! uid = None ->
  fresh k m (<[uid := u]> m) = (if String.eqb uid k then 1 else 0)%nat.
Proof.
  intros Hm. unfold fresh.
  destruct (String.eqb_spec uid k) as [->|Hne].
  - now rewrite Hm, lookup_insert_eq.
  - rewrite lookup_insert_ne by exact Hne. now destruct (m !! k).
Qed.

Lemma uid_step_refl g w : uid_step g w g w.
Proof. split; [reflexivity|]. intros k. rewrite fresh_same. lia. Qed.

Lemma uid_step_trans g1 w1 g2 w2 g3 w3 :
  uid_step g1 w1 g2 w2 -> uid_step g2 w2 g3 w3 -> uid_step g1 w1 g3 w3.
Proof.
  intros [S12 C12] [S23 C23]. split; [etransitivity; eassumption|].
  intros k. rewrite C23, C12, (fresh_trans k _ _ _ S12 S23). lia.
Qed.

Lemma uid_frame_refl g w : uid_frame g w g w.
Proof. split; try reflexivity. now destruct g. Qed.

Lemma uid_frame_trans g1 w1 g2 w2 g3 w3 :
  uid_frame g1 w1 g2 w2 -> uid_frame g2 w2 g3 w3 -> uid_frame g1 w1 g3 w3.
Proof.
  intros [G12 E12 N12 C12] [G23 E23 N23 C23]. split; try congruence.
  rewrite G23, G12. reflexivity.
Qed.

Lemma uid_frame_fields g w g' w' :
  uid_frame g w g' w' ->
  amgSeq g' = amgSeq g /\ amgAuditTime g' = amgAuditTime g /\
  CompleteAfter g' = CompleteAfter g /\ Msgs g' = Msgs g /\
  DnsMap g' = DnsMap g /\ Syscall g' = Syscall g /\
  gotSaddr g' = gotSaddr g /\ gotDNS g' = gotDNS g.
Proof. intros [Hg _ _ _]. rewrite Hg. repeat split. Qed.

Lemma recordUid_step uid g w :
  uid_step g w (fst (recordUid uid g w)) (snd (recordUid uid g w)).
Proof.
  unfold recordUid. destruct (UidMap g !! uid) as [u|] eqn:E;
    [apply uid_step_refl|].
  cbn [fst snd]. split.
  - cbn [UidMap set_UidMap]. apply insert_subseteq, E.
  - intros k. cbn [UidMap set_UidMap]. rewrite fresh_insert by exact E.
    unfold getUsername.
    destruct (uidMap w !! uid); cbn [snd getUsernameCalls];
      rewrite ncalls_app; cbn [ncalls]; lia.
Qed.

Lemma recordUid_frame uid g w :
  uid_frame g w (fst (recordUid uid g w)) (snd (recordUid uid g w)).
Proof.
  unfold recordUid. destruct (UidMap g !! uid) as [u|] eqn:E;
    [apply uid_frame_refl|].
  cbn [fst snd]. unfold getUsername.
  destruct (uidMap w !! uid); split; reflexivity.
Qed.

Lemma recordUid_dom uid g w :
  dom (UidMap (fst (recordUid uid g w))) = {[uid]} ∪ dom (UidMap g).
Proof.
  unfold recordUid. destruct (UidMap g !! uid) as [u|] eqn:E; cbn [fst].
  - apply elem_of_dom_2 in E. apply set_eq. intros x.
    rewrite elem_of_union, elem_of_singleton. intuition congruence.
  - cbn [UidMap set_UidMap]. apply dom_insert_L.
Qed.

(** The loop of [mapUids] ends within [len(data) + 1] turns: it returns,
    never panics, and never runs out of the turns the model allows. *)
Lemma mapUids_loop_steps fuel data g w :
  (String.length data < fuel)%nat ->
  exists g' w', mapUids_loop fuel data g w = Ok (g', w') /\
                uid_step g w g' w' /\ uid_frame g w g' w'.
Proof.
  revert data g w; induction fuel as [|fuel IH]; intros data g w Hf; [lia|].
  rewrite mapUids_loop_S.
  destruct (extract "uid=" 5 data) as [uid|] eqn:E.
  2:{ exists g, w. split; [reflexivity|]. split;
        [apply uid_step_refl | apply uid_frame_refl]. }
  apply extract_Some in E as (Hi & Hb & _). change (len "uid=") with 4 in Hb.
  pose proof (len_nonneg uid) as Hu.
  pose proof (recordUid_step uid g w) as Hs.
  pose proof (recordUid_frame uid g w) as Hfr.
  cbv zeta.
  destruct (Z.geb_spec (Index data "uid=" + 4 + len uid + 1) (len data)) as [|Hn].
  - exists (fst (recordUid uid g w)), (snd (recordUid uid g w)).
    split; [now destruct (recordUid uid g w) | split; assumption].
  - destruct (IH (drop (Z.to_nat (Index data "uid=" + 4 + len uid + 1)) data)
                (fst (recordUid uid g w)) (snd (recordUid uid g w)))
      as (g' & w' & Hrun & Hs' & Hfr').
    { rewrite length_drop. unfold len in *. lia. }
    exists g', w'. split; [exact Hrun|]. split.
    + eapply uid_step_trans; eassumption.
    + eapply uid_frame_trans; eassumption.
Qed.

Lemma mapUids_total g am w :
  exists g' w', mapUids g am w = Ok (g', w') /\
                uid_step g w g' w' /\ uid_frame g w g' w'.
Proof. apply mapUids_loop_steps. lia. Qed.


(** ** Socket addresses *)

Lemma mapDns_extract amg am w :
  mapDns amg am w =
    match extract "saddr=" SOCKADDR_LENGTH (Data am) with
    | None => Ok (EmptyString, EmptyString, amg, w)
    | Some saddr =>
        r <- parseAddr saddr w ;;
        Ok (lookupHost (fst r) (set_gotSaddr true amg) (snd r))
    end.
Proof.
  unfold mapDns.
  etransitivity;
    [exact (scan_bind "saddr=" 6 SOCKADDR_LENGTH (Data am)
              (Ok (EmptyString, EmptyString, amg, w))
              (fun saddr _ =>
                 r <- parseAddr saddr w ;;
                 Ok (lookupHost (fst r) (set_gotSaddr true amg) (snd r)))
              eq_refl) |].
  reflexivity.
Qed.

(** [parseAddr] writes to the error log only. *)
Lemma parseAddr_world saddr w ip w1 :
  parseAddr saddr w = Ok (ip, w1) ->
  uidMap w1 = uidMap w /\ env w1 = env w /\ now w1 = now w /\
  getUsernameCalls w1 = getUsernameCalls w /\ cGetCalls w1 = cGetCalls w.
Proof.
  unfold parseAddr.
  destruct (slice saddr 0 4) as [family| |]; cbn [res_bind]; try discriminate.
  destruct (String.eqb family "0200").
  - destruct (slice saddr 8 16) as [hx| |]; cbn [res_bind]; try discriminate.
    destruct (snd (hex.DecodeString hx)); intros [= _ <-]; repeat split.
  - intros [= _ <-]; repeat split.
Qed.

(** ** AddMessage, by message type *)

Lemma AddMessage_stored g am w :
  Type_ am = EXECVE \/ Type_ am = CWD ->
  AddMessage g am w = Ok (set_Msgs (Msgs g ++ [am])%list g, w).
Proof. unfold AddMessage. intros [-> | ->]; reflexivity. Qed.

Lemma AddMessage_SOCKADDR g am w :
  Type_ am = SOCKADDR ->
  AddMessage g am w =
    (r <- mapDns (set_Msgs (Msgs g ++ [am])%list g) am w ;;
     Ok (snd (fst r), snd r)).
Proof. unfold AddMessage. intros ->. reflexivity. Qed.

Lemma AddMessage_SYSCALL g am w :
  Type_ am = SYSCALL ->
  AddMessage g am w =
    mapUids (match extract "syscall=" 5 (Data am) with
             | None => set_Msgs (Msgs g ++ [am])%list g
             | Some v => set_Syscall v (set_Msgs (Msgs g ++ [am])%list g)
             end) am w.
Proof.
  unfold AddMessage. intros ->. cbn [Z.eqb SYSCALL EXECVE CWD SOCKADDR orb Pos.eqb].
  rewrite findSyscall_extract.
  now destruct (extract "syscall=" 5 (Data am)).
Qed.

Lemma AddMessage_other g am w :
  scansUids (Type_ am) = true -> Type_ am <> SYSCALL ->
  AddMessage g am w = mapUids (set_Msgs (Msgs g ++ [am])%list g) am w.
Proof.
  unfold AddMessage, scansUids. intros Hs Hn.
  apply negb_true_iff in Hs. apply orb_false_iff in Hs as [Hs ->].
  rewrite Hs.
  destruct (Z.eqb_spec (Type_ am) SYSCALL); [contradiction | reflexivity].
Qed.

Lemma type_cases t :
  (t = EXECVE \/ t = CWD) \/ t = SOCKADDR \/ t = SYSCALL \/
  (scansUids t = true /\ t <> SYSCALL).
Proof.
  unfold scansUids.
  destruct (Z.eqb_spec t EXECVE); [tauto|].
  destruct (Z.eqb_spec t CWD); [tauto|].
  destruct (Z.eqb_spec t SOCKADDR); [tauto|].
  destruct (Z.eq_dec t SYSCALL); [tauto|].
  right; right; right. now split.
Qed.

Lemma uid_step_eq g w g' w' :
  UidMap g' = UidMap g -> getUsernameCalls w' = getUsernameCalls w ->
  uid_step g w g' w'.
Proof.
  intros Hg Hw. split; [now rewrite Hg|].
  intros k. rewrite Hw, Hg, fresh_same. lia.
Qed.

(** What every [AddMessage] that returns leaves behind: the group's
    sequence number and timestamp are untouched, the message is appended,
    and uids are resolved at most once. *)
Lemma AddMessage_inv g am w g' w' :
  AddMessage g am w = Ok (g', w') ->
  amgSeq g' = amgSeq g /\ amgAuditTime g' = amgAuditTime g /\
  CompleteAfter g' = CompleteAfter g /\
  Msgs g' = (Msgs g ++ [am])%list /\
  uid_step g w g' w'.
Proof.
  destruct (type_cases (Type_ am)) as [Ht | [Ht | [Ht | [Ht Hn]]]].
  - rewrite AddMessage_stored by exact Ht. intros [= <- <-].
    refine (conj _ (conj _ (conj _ (conj _ _)))); try reflexivity.
    now apply uid_step_eq.
  - rewrite AddMessage_SOCKADDR, mapDns_extract by exact Ht.
    destruct (extract "saddr=" SOCKADDR_LENGTH (Data am)) as [saddr|];
      cbn [res_bind fst snd].
    2:{ intros [= <- <-].
        refine (conj _ (conj _ (conj _ (conj _ _)))); try reflexivity.
        now apply uid_step_eq. }
    destruct (parseAddr saddr w) as [[ip w1]| |] eqn:E; cbn [res_bind];
      try discriminate.
    apply parseAddr_world in E as (_ & _ & _ & Hc & _).
    unfold lookupHost. cbn [fst snd]. intros [= <- <-].
    destruct (snd (fst (cGet ip (env w1))));
      (refine (conj _ (conj _ (conj _ (conj _ _)))); try reflexivity;
       now apply uid_step_eq).
  - rewrite AddMessage_SYSCALL by exact Ht.
    set (g1 := match extract "syscall=" 5 (Data am) with
               | None => _ | Some v => _ end).
    destruct (mapUids_total g1 am w) as (g2 & w2 & -> & Hs & Hfr).
    apply uid_frame_fields in Hfr as (F1 & F2 & F3 & F4 & _).
    intros [= <- <-]. rewrite F1, F2, F3, F4.
    assert (Hg1 : uid_step g w g1 w)
      by (subst g1; destruct (extract "syscall=" 5 (Data am));
          now apply uid_step_eq).
    subst g1.
    destruct (extract "syscall=" 5 (Data am));
      (refine (conj _ (conj _ (conj _ (conj _ _)))); try reflexivity;
       eapply uid_step_trans; eassumption).
  - rewrite AddMessage_other by assumption.
    destruct (mapUids_total (set_Msgs (Msgs g ++ [am])%list g) am w)
      as (g2 & w2 & -> & Hs & Hfr).
    apply uid_frame_fields in Hfr as (F1 & F2 & F3 & F4 & _).
    intros [= <- <-]. rewrite F1, F2, F3, F4.
    refine (conj _ (conj _ (conj _ (conj _ _)))); try reflexivity.
    eapply uid_step_trans; [|exact Hs]. now apply uid_step_eq.
Qed.

(** [AddMessage] returns on every message that is not a SOCKADDR one, and
    on no message does it use up the turns the model allows its loop. *)
Lemma AddMessage_returns g am w :
  Type_ am <> SOCKADDR -> exists g' w', AddMessage g am w = Ok (g', w').
Proof.
  intros Hn.
  destruct (type_cases (Type_ am)) as [Ht | [Ht | [Ht | [Ht Hs]]]].
  - rewrite AddMessage_stored by exact Ht. eauto.
  - contradiction.
  - rewrite AddMessage_SYSCALL by exact Ht.
    destruct (mapUids_total
                (match extract "syscall=" 5 (Data am) with
                 | None => set_Msgs (Msgs g ++ [am])%list g
                 | Some v => set_Syscall v (set_Msgs (Msgs g ++ [am])%list g)
                 end) am w) as (g' & w' & H & _).
    eauto.
  - rewrite AddMessage_other by assumption.
    destruct (mapUids_total (set_Msgs (Msgs g ++ [am])%list g) am w)
      as (g' & w' & H & _).
    eauto.
Qed.

Lemma AddMessage_fuel g am w : AddMessage g am w <> OutOfFuel.
Proof.
  destruct (Z.eq_dec (Type_ am) SOCKADDR) as [Ht|Ht].
  - rewrite AddMessage_SOCKADDR, mapDns_extract by exact Ht.
    destruct (extract "saddr=" SOCKADDR_LENGTH (Data am)) as [saddr|];
      [|discriminate].
    unfold parseAddr.
    destruct (slice saddr 0 4) as [family| |] eqn:E1; cbn [res_bind];
      [| discriminate | now apply slice_fuel in E1].
    destruct (String.eqb family "0200"); cbn [res_bind]; [|discriminate].
    destruct (slice saddr 8 16) eqn:E2; cbn [res_bind]; cbv zeta; cbn [res_bind];
      [discriminate | discriminate | now apply slice_fuel in E2].
  - destruct (AddMessage_returns g am w Ht) as (g' & w' & ->). discriminate.
Qed.

Lemma AddMessages_inv ams g w g' w' :
  AddMessages g ams w = Ok (g', w') ->
  amgSeq g' = amgSeq g /\ Msgs g' = (Msgs g ++ ams)%list /\
  uid_step g w g' w'.
Proof.
  revert g w; induction ams as [|am ams IH]; intros g w; cbn [AddMessages].
  - intros [= <- <-]. rewrite app_nil_r.
    refine (conj _ (conj _ _)); try reflexivity. apply uid_step_refl.
  - destruct (AddMessage g am w) as [[g1 w1]| |] eqn:E; cbn [res_bind fst snd];
      try discriminate.
    intros H. apply IH in H as (Hs & Hm & Hu).
    apply AddMessage_inv in E as (Hs1 & _ & _ & Hm1 & Hu1).
    refine (conj _ (conj _ _)).
    + congruence.
    + rewrite Hm, Hm1, <- app_assoc. reflexivity.
    + eapply uid_step_trans; eassumption.
Qed.

End ProgramFacts.

(** * Properties of the group correlator *)

Section UidCapture.

Context {collab : Collaborators}.
Import Go.

Lemma uidText_empty fs e :
  uidText fs e = EmptyString -> (map snd fs ++ endKeys e)%list = [].
Proof.
  destruct fs as [|[p v] fs]; cbn [uidText map app fst snd].
  - destruct e as [t|p v]; cbn [endText endKeys]; [reflexivity|].
    intros H. apply (f_equal String.length) in H.
    rewrite !length_app_s in H. cbn in H. lia.
  - intros H. apply (f_equal String.length) in H.
    rewrite !length_app_s in H. cbn in H. lia.
Qed.

Lemma len_0_empty s : len s = 0 -> s = EmptyString.
Proof. destruct s; [reflexivity|]. rewrite len_String. pose proof (len_nonneg s). lia. Qed.

Lemma drop_field p v R :
  drop (Z.to_nat (len p + 4 + len v + 1)) (p ++ "uid=" ++ v ++ " " ++ R) = R.
Proof.
  replace (p ++ "uid=" ++ v ++ " " ++ R)%string
    with ((p ++ "uid=" ++ v ++ " ") ++ R)%string
    by (rewrite !app_assoc_s; reflexivity).
  replace (Z.to_nat (len p + 4 + len v + 1))
    with (String.length (p ++ "uid=" ++ v ++ " ")).
  - apply drop_app_length.
  - rewrite !length_app_s. cbn [String.length]. unfold len. lia.
Qed.

Lemma mapUids_loop_fields fs e :
  Forall fieldOk fs -> endOk e ->
  forall fuel g w,
    (String.length (uidText fs e) < fuel)%nat ->
    exists g' w',
      mapUids_loop fuel (uidText fs e) g w = Ok (g', w') /\
      dom (UidMap g') =
        dom (UidMap g) ∪ list_to_set (map snd fs ++ endKeys e)%list.
Proof.
  induction 1 as [|[p v] fs [Hp Hv] Hfs IH]; intros He fuel g w Hf;
    (destruct fuel as [|fuel]; [lia|]); rewrite mapUids_loop_S;
    cbn [uidText fst snd] in *.
  - destruct e as [t|p v]; cbn [endText endKeys endOk map app] in *.
    + rewrite extract_absent by exact He.
      exists g, w. split; [reflexivity|]. cbn [list_to_set]. set_solver.
    + destruct He as (Hp & Hv & Hl). rewrite extract_last by assumption.
      destruct (Z.gtb_spec (len v) 5); [lia|]. cbv zeta.
      rewrite (Index_app p "uid=" v) by exact Hp.
      destruct (Z.geb_spec (len p + 4 + len v + 1) (len (p ++ "uid=" ++ v)))
        as [_|Hlt].
      2:{ rewrite !len_app in Hlt. change (len "uid=") with 4 in Hlt. lia. }
      exists (fst (recordUid v g w)), (snd (recordUid v g w)).
      split; [now destruct (recordUid v g w)|].
      rewrite recordUid_dom. cbn [list_to_set]. set_solver.
    - rewrite extract_spaced by assumption. cbv zeta.
      rewrite (Index_app p "uid=" (v ++ " " ++ uidText fs e)) by exact Hp.
      set (R := uidText fs e) in *.
      assert (Hlen : len (p ++ "uid=" ++ v ++ " " ++ R)
                     = len p + 4 + len v + 1 + len R)
        by (rewrite !len_app; change (len "uid=") with 4;
            change (len " ") with 1; lia).
      rewrite Hlen. pose proof (len_nonneg R).
      destruct (Z.geb_spec (len p + 4 + len v + 1) (len p + 4 + len v + 1 + len R))
        as [Hge|Hlt].
      + assert (HR : R = EmptyString) by (apply len_0_empty; lia).
        apply uidText_empty in HR.
        exists (fst (recordUid v g w)), (snd (recordUid v g w)).
        split; [now destruct (recordUid v g w)|].
        rewrite recordUid_dom. cbn [map app fst snd]. rewrite HR.
        cbn [list_to_set]. set_solver.
      + rewrite drop_field.
        destruct (IH He fuel (fst (recordUid v g w)) (snd (recordUid v g w)))
          as (g' & w' & Hrun & Hdom).
        { rewrite !length_app_s in Hf. cbn [String.length] in Hf. lia. }
        exists g', w'. split; [exact Hrun|].
        rewrite Hdom, recordUid_dom. cbn [map app fst snd list_to_set].
        set_solver.
Qed.

(** C4 (as amended).  Uid extraction captures every key that ends in
    [uid=] ([uid=], [auid=], [euid=], [suid=], [fsuid=], ...: whatever
    text precedes [uid=]) of a message made of such fields, each value
    ended by a space or, for the last one, by the end of the text within 5
    bytes: the keys of the group's [UidMap] after [AddMessage] are the
    keys it had plus every value.  (A last value that runs to the end of
    the text beyond 5 bytes is rejected by the scan, and a [uid=] inside a
    value belongs to that value.) *)
Theorem AddMessage_captures_every_uid fs e g am w :
  scansUids (Type_ am) = true ->
  Data am = uidText fs e ->
  Forall fieldOk fs -> endOk e ->
  exists g' w',
    AddMessage g am w = Ok (g', w') /\
    dom (UidMap g') =
      dom (UidMap g) ∪ list_to_set (map snd fs ++ endKeys e)%list.
Proof.
  intros Ht Hd Hfs He.
  assert (Hloop : forall g1, UidMap g1 = UidMap g ->
            exists g' w', mapUids g1 am w = Ok (g', w') /\
              dom (UidMap g') =
                dom (UidMap g) ∪ list_to_set (map snd fs ++ endKeys e)%list).
  { intros g1 Hg1. unfold mapUids. rewrite Hd, <- Hg1.
    apply mapUids_loop_fields; [assumption | assumption | lia]. }
  destruct (Z.eq_dec (Type_ am) SYSCALL) as [Hs|Hs].
  - rewrite AddMessage_SYSCALL by exact Hs.
    apply Hloop. now destruct (extract "syscall=" 5 (Data am)).
  - rewrite AddMessage_other by assumption. now apply Hloop.
Qed.

End UidCapture.

Lemma AddMessage_captures_every_uid_witness :
  exists g' w',
    @AddMessage fakes g0 (msg SYSCALL "uid=1000 euid=1000 suid=0") w0 = Ok (g', w') /\
    dom (UidMap g') = ({["1000"]} ∪ {["0"]} : gset string).
Proof.
  destruct (@AddMessage_captures_every_uid fakes
              [(EmptyString, "1000"); ("e", "1000")] (Last "s" "0")
              g0 (msg SYSCALL "uid=1000 euid=1000 suid=0") w0)
    as (g' & w' & Hrun & Hdom).
  - reflexivity.
  - reflexivity.
  - repeat constructor.
  - repeat split; vm_compute; discriminate.
  - exists g', w'. split; [exact Hrun|].
    rewrite Hdom. cbn. set_solver.
Defined.

(** C4, as the specification states it, fails: the [auid=] at the end of
    this text is an occurrence of a key that ends in [uid=], and its value
    is not captured, because it runs to the end of the text and is longer
    than 5 bytes. *)
Lemma uid_trailing_value_not_captured :
  exists g' w',
    @AddMessage fakes g0 (msg SYSCALL "uid=0 auid=4294967295") w0 = Ok (g', w') /\
    UidMap g' !! "0" = Some "root" /\
    UidMap g' !! "4294967295" = None.
Proof. eexists _, _. repeat split; vm_compute; reflexivity. Qed.

Section GroupInvariants.

Context {collab : Collaborators}.
Import Go.


(** C9 (as amended).  [AddMessage] does not compare sequence numbers: it
    is the caller that picks the group by sequence number.  A group
    created from [am] and fed messages that carry [am]'s sequence number
    keeps that number as its own, stores exactly those messages in
    arrival order, and all of them share the group's sequence number. *)
Theorem group_shares_sequence am ams w g' w' :
  Forall (fun m => Seq m = Seq am) ams ->
  runGroup am ams w = Ok (g', w') ->
  amgSeq g' = Seq am /\
  Msgs g' = am :: ams /\
  Forall (fun m => Seq m = amgSeq g') (Msgs g').
Proof.
  intros Hall. unfold runGroup, NewAuditMessageGroup.
  destruct (AddMessage _ am w) as [[g1 w1]| |] eqn:E; cbn [res_bind fst snd];
    try discriminate.
  intros H. apply AddMessages_inv in H as (Hs & Hm & _).
  apply AddMessage_inv in E as (Hs1 & _ & _ & Hm1 & _).
  cbn [amgSeq Msgs app] in Hs1, Hm1.
  assert (Hseq : amgSeq g' = Seq am) by congruence.
  assert (Hmsgs : Msgs g' = am :: ams) by (rewrite Hm, Hm1; reflexivity).
  refine (conj Hseq (conj Hmsgs _)).
  rewrite Hmsgs, Hseq. constructor; [reflexivity | exact Hall].
Qed.

End GroupInvariants.


Lemma group_shares_sequence_witness :
  exists g' w',
    @runGroup fakes scenario_first scenario_rest w0 = Ok (g', w') /\
    amgSeq g' = 100 /\
    Msgs g' = scenario_first :: scenario_rest /\
    Forall (fun m => Seq m = amgSeq g') (Msgs g').
Proof.
  destruct (@runGroup fakes scenario_first scenario_rest w0)
    as [[g' w']| |] eqn:E; [| vm_compute in E; discriminate E ..].
  exists g', w'. split; [reflexivity|].
  apply (@group_shares_sequence fakes scenario_first scenario_rest w0 g' w').
  - repeat constructor.
  - exact E.
Defined.

(** C9, as the specification states it, fails: [AddMessage] appends a
    message that carries another sequence number. *)
Lemma group_mixed_sequence :
  exists g' w',
    @runGroup fakes (mkAuditMessage CWD "cwd=/" 1 "t")
      [mkAuditMessage CWD "cwd=/tmp" 2 "t"] w0 = Ok (g', w') /\
    ~ Forall (fun m => Seq m = amgSeq g') (Msgs g').
Proof.
  eexists _, _. split; [vm_compute; reflexivity|].
  cbn [amgSeq Msgs]. intros H.
  inversion H as [|? ? _ H2]; subst. inversion H2 as [|? ? H3 _]; subst.
  cbn in H3. discriminate H3.
Qed.

Section SyscallId.

Context {collab : Collaborators}.
Import Go.

(** C8 (as amended).  On a SYSCALL message [AddMessage] always returns,
    and the group's [Syscall] field holds the token that follows the first
    [syscall=]: up to the next space, whatever the token's length; or,
    when no space follows, up to the end of the text if that is at most 5
    bytes.  A longer token that runs to the end of the text is rejected
    and the field is left as it was, as it is when there is no
    [syscall=]. *)
Theorem syscall_id_extraction g am w :
  Type_ am = SYSCALL ->
  exists g' w',
    AddMessage g am w = Ok (g', w') /\
    (Index (Data am) "syscall=" = -1 -> Syscall g' = Syscall g) /\
    (forall pre tok,
        Index (pre ++ "syscall=") "syscall=" = len pre ->
        IndexByte tok spaceChar = -1 ->
        (forall rest, Data am = (pre ++ "syscall=" ++ tok ++ " " ++ rest)%string ->
                      Syscall g' = tok) /\
        (Data am = (pre ++ "syscall=" ++ tok)%string -> len tok <= 5 ->
         Syscall g' = tok) /\
        (Data am = (pre ++ "syscall=" ++ tok)%string -> 5 < len tok ->
         Syscall g' = Syscall g)).
Proof.
  intros Ht. rewrite AddMessage_SYSCALL by exact Ht.
  set (g1 := match extract "syscall=" 5 (Data am) with
             | None => _ | Some v => _ end).
  destruct (mapUids_total g1 am w) as (g' & w' & Hrun & _ & Hfr).
  apply uid_frame_fields in Hfr as (_ & _ & _ & _ & _ & Hsys & _).
  exists g', w'. split; [exact Hrun|]. rewrite Hsys. subst g1. split.
  - intros Hno. now rewrite extract_absent.
  - intros pre tok Hpre Htok. repeat split.
    + intros rest ->. now rewrite extract_spaced.
    + intros -> Hl. rewrite extract_last by assumption.
      destruct (Z.gtb_spec (len tok) 5); [lia | reflexivity].
    + intros -> Hl. rewrite extract_last by assumption.
      destruct (Z.gtb_spec (len tok) 5); [reflexivity | lia].
Qed.

End SyscallId.

Lemma syscall_id_extraction_witness :
  exists g' w',
    @AddMessage fakes g0 (msg SYSCALL "arch=c000003e syscall=59 success=yes") w0
      = Ok (g', w') /\
    Syscall g' = "59".
Proof.
  destruct (@syscall_id_extraction fakes g0
              (msg SYSCALL "arch=c000003e syscall=59 success=yes") w0 eq_refl)
    as (g' & w' & Hrun & _ & Htok).
  exists g', w'. split; [exact Hrun|].
  exact (proj1 (Htok "arch=c000003e " "59" eq_refl eq_refl) "success=yes" eq_refl).
Defined.

(** C8, as the specification states it, fails: a token of seven bytes that
    a space ends is accepted. *)
Lemma syscall_long_token_accepted :
  exists g' w',
    @NewAuditMessageGroup fakes (msg SYSCALL "syscall=1234567 success=yes") w0
      = Ok (g', w') /\
    Syscall g' = "1234567" /\ 5 < Go.len (Syscall g').
Proof. eexists _, _. repeat split; vm_compute; reflexivity. Qed.

Section SocketAddress.

Context {collab : Collaborators}.
Import Go.

Lemma AddMessage_SOCKADDR_extract g am w :
  Type_ am = SOCKADDR ->
  AddMessage g am w =
    let g1 := set_Msgs (Msgs g ++ [am])%list g in
    match extract "saddr=" SOCKADDR_LENGTH (Data am) with
    | None => Ok (g1, w)
    | Some saddr =>
        r <- parseAddr saddr w ;;
        let l := lookupHost (fst r) (set_gotSaddr true g1) (snd r) in
        Ok (snd (fst l), snd l)
    end.
Proof.
  intros Ht. rewrite AddMessage_SOCKADDR, mapDns_extract by exact Ht.
  cbv zeta. destruct (extract "saddr=" SOCKADDR_LENGTH (Data am)); [|reflexivity].
  destruct (parseAddr s w); reflexivity.
Qed.

(** C6 (as amended).  For a SOCKADDR message that [AddMessage] processes,
    [gotSaddr] is set exactly when address text is extracted: the message
    has a [saddr=] whose value a space ends or that runs to the end of
    the text within 34 bytes; otherwise the flag is left as it was.
    [gotDNS] is set and a [DnsMap] entry is recorded when, and only when,
    the lookup [c.Get] made for the decoded address succeeds. *)
Theorem sockaddr_flags g am w g' w' :
  Type_ am = SOCKADDR ->
  AddMessage g am w = Ok (g', w') ->
  (gotSaddr g' = true <->
     gotSaddr g = true \/ extract "saddr=" SOCKADDR_LENGTH (Data am) <> None) /\
  (Index (Data am) "saddr=" = -1 -> gotSaddr g' = gotSaddr g) /\
  ((gotDNS g' = gotDNS g /\ DnsMap g' = DnsMap g) \/
   (exists ip host,
       cGet ip (env w) = (host, true, env w') /\
       gotDNS g' = true /\ DnsMap g' = <[ip := host]> (DnsMap g))) /\
  (forall saddr ip w1,
      extract "saddr=" SOCKADDR_LENGTH (Data am) = Some saddr ->
      parseAddr saddr w = Ok (ip, w1) ->
      snd (fst (cGet ip (env w))) = true ->
      gotDNS g' = true /\
      DnsMap g' = <[ip := fst (fst (cGet ip (env w)))]> (DnsMap g)).
Proof.
  intros Ht. rewrite AddMessage_SOCKADDR_extract by exact Ht. cbv zeta.
  destruct (extract "saddr=" SOCKADDR_LENGTH (Data am)) as [saddr|] eqn:E.
  2:{ intros [= <- <-]. cbn [gotSaddr gotDNS DnsMap set_Msgs].
      refine (conj _ (conj _ (conj _ _))).
      - split; [now left | intros [H|H]; [exact H | congruence]].
      - reflexivity.
      - now left.
      - discriminate. }
  destruct (parseAddr saddr w) as [[ip w1]| |] eqn:Ep; cbn [res_bind fst snd];
    try discriminate.
  pose proof (parseAddr_world _ _ _ _ Ep) as (_ & Henv & _).
  unfold lookupHost. cbn [fst snd]. rewrite Henv.
  destruct (cGet ip (env w)) as [[host ok] e'] eqn:Eg. cbn [fst snd].
  intros [= <- <-].
  refine (conj _ (conj _ (conj _ _))).
  - destruct ok; cbn; split; auto; intros _; right; discriminate.
  - intros Hno. rewrite extract_absent in E by exact Hno. discriminate.
  - destruct ok; [right | left; split; reflexivity].
    exists ip, host. cbn. repeat split. exact Eg.
  - intros saddr' ip' w1' [= <-]. rewrite Ep. intros [= <- <-].
    rewrite Eg. cbn [fst snd]. intros ->. cbn. split; reflexivity.
Qed.

(** C10.  A SOCKADDR message costs at most one lookup and at most one
    [DnsMap] entry; the lookup is the one for the value of the first
    [saddr=], whatever follows it, further [saddr=] included. *)
Theorem one_lookup_per_sockaddr g am w :
  Type_ am = SOCKADDR ->
  (forall g' w',
      AddMessage g am w = Ok (g', w') ->
      (cGetCalls w' = cGetCalls w /\ DnsMap g' = DnsMap g) \/
      (exists ip,
          cGetCalls w' = (cGetCalls w ++ [ip])%list /\
          (DnsMap g' = DnsMap g \/
           exists host, DnsMap g' = <[ip := host]> (DnsMap g)))) /\
  (forall pre v rest ip w1,
      Data am = (pre ++ "saddr=" ++ v ++ " " ++ rest)%string ->
      Index (pre ++ "saddr=") "saddr=" = len pre ->
      IndexByte v spaceChar = -1 ->
      parseAddr v w = Ok (ip, w1) ->
      exists g' w',
        AddMessage g am w = Ok (g', w') /\
        cGetCalls w' = (cGetCalls w ++ [ip])%list).
Proof.
  intros Ht. rewrite AddMessage_SOCKADDR_extract by exact Ht. cbv zeta. split.
  - intros g' w'.
    destruct (extract "saddr=" SOCKADDR_LENGTH (Data am)) as [saddr|].
    2:{ intros [= <- <-]. left. split; reflexivity. }
    destruct (parseAddr saddr w) as [[ip w1]| |] eqn:Ep; cbn [res_bind fst snd];
      try discriminate.
    pose proof (parseAddr_world _ _ _ _ Ep) as (_ & _ & _ & _ & Hc).
    unfold lookupHost. cbn [fst snd]. intros [= <- <-].
    right. exists ip. cbn [cGetCalls]. rewrite Hc. split; [reflexivity|].
    destruct (snd (fst (cGet ip (env w1)))); [right | now left].
    eexists. reflexivity.
  - intros pre v rest ip w1 -> Hpre Hv Ep.
    rewrite extract_spaced by assumption. rewrite Ep. cbn [res_bind fst snd].
    pose proof (parseAddr_world _ _ _ _ Ep) as (_ & _ & _ & _ & Hc).
    eexists _, _. split; [reflexivity|].
    unfold lookupHost. cbn [fst snd cGetCalls]. now rewrite Hc.
Qed.

(** C3 (as amended).  The decoder renders the four bytes at hex offset
    [8,16) in the order they are written: the text of the specification's
    example decodes to [1.0.0.127], and [127.0.0.1] is what the sockaddr
    of that address decodes to.  Every input of at least four bytes whose
    first four differ from [0200] gives the empty string. *)
Theorem parseAddr_families w :
  parseAddr "0200007F0100007F0000000000000000" w = Ok ("1.0.0.127", w) /\
  parseAddr "020000507F0000010000000000000000" w = Ok ("127.0.0.1", w) /\
  (forall family rest,
      String.length family = 4%nat -> family <> "0200" ->
      parseAddr (family ++ rest) w = Ok (EmptyString, w)).
Proof.
  refine (conj _ (conj _ _)); [reflexivity | reflexivity |].
  intros family rest Hl Hne. unfold parseAddr.
  assert (Hs : slice (family ++ rest) 0 4 = Ok family).
  { replace 4 with (len family) by (unfold len; rewrite Hl; reflexivity).
    apply slice_to_app. }
  rewrite Hs. cbn [res_bind].
  destruct (String.eqb_spec family "0200"); [contradiction | reflexivity].
Qed.

(** C7: on the failing input the decoder logs the error and goes on, but
    the address it returns is [<nil>], not the empty string. *)
Theorem parseAddr_hex_failure w :
  parseAddr "0200007FZZ00007F0000000000000000" w
  = Ok ("<nil>", el_Printf (hex.InvalidByteError "Z") w).
Proof. reflexivity. Qed.

(** C1: inputs on which the operations panic. *)
Theorem core_operations_panic :
  parseAuditHeader "audit(1234567)" = Panic /\
  parseAuditHeader "audit(1:2)" = Panic /\
  (forall w, parseAddr "02" w = Panic) /\
  (forall w, parseAddr "0200007F" w = Panic) /\
  (forall g w, AddMessage g (msg SOCKADDR "saddr=02") w = Panic).
Proof. repeat split. Qed.

End SocketAddress.

Lemma sockaddr_flags_witness :
  exists g' w',
    @AddMessage fakes g0 (msg SOCKADDR "saddr=020000507F0000010000000000000000") w0
      = Ok (g', w') /\
    gotSaddr g' = true /\ gotDNS g' = true /\
    DnsMap g' = <["127.0.0.1" := "localhost"]> ∅.
Proof.
  destruct (@AddMessage fakes g0
              (msg SOCKADDR "saddr=020000507F0000010000000000000000") w0)
    as [[g' w']| |] eqn:E; [| vm_compute in E; discriminate E ..].
  destruct (@sockaddr_flags fakes g0
              (msg SOCKADDR "saddr=020000507F0000010000000000000000") w0 g' w'
              eq_refl E) as (Hflag & _ & _ & Hdns).
  exists g', w'. split; [reflexivity|]. split.
  - apply Hflag. right. vm_compute. discriminate.
  - exact (Hdns "020000507F0000010000000000000000" "127.0.0.1" w0
             eq_refl eq_refl eq_refl).
Defined.

(** C6, as the specification states it, fails: a SOCKADDR message without
    [saddr=] leaves [gotSaddr] unset. *)
Lemma sockaddr_flag_not_set :
  exists g' w',
    @AddMessage fakes g0 (msg SOCKADDR "no socket address in this text") w0
      = Ok (g', w') /\
    gotSaddr g' = false.
Proof. eexists _, _. split; vm_compute; reflexivity. Qed.

Lemma one_lookup_per_sockaddr_witness :
  exists g' w',
    @AddMessage fakes g0
      (msg SOCKADDR
         "saddr=020000507F0000010000000000000000 saddr=020000500A0000010000000000000000")
      w0 = Ok (g', w') /\
    cGetCalls w' = ["127.0.0.1"].
Proof.
  exact (proj2 (@one_lookup_per_sockaddr fakes g0
                  (msg SOCKADDR
                     "saddr=020000507F0000010000000000000000 saddr=020000500A0000010000000000000000")
                  w0 eq_refl)
           EmptyString "020000507F0000010000000000000000"
           "saddr=020000500A0000010000000000000000" "127.0.0.1" w0
           eq_refl eq_refl eq_refl eq_refl).
Defined.

Lemma parseAddr_families_witness :
  @parseAddr fakes ("0A00" ++ "0050000000000000000000000000") w0 = Ok (EmptyString, w0).
Proof.
  apply (proj2 (proj2 (@parseAddr_families fakes w0))).
  - reflexivity.
  - discriminate.
Defined.

(** C3, as the specification states it, fails: the example text does not
    decode to [127.0.0.1]. *)
Lemma parseAddr_example_not_loopback :
  @parseAddr fakes "0200007F0100007F0000000000000000" w0 <> Ok ("127.0.0.1", w0).
Proof. intros H. vm_compute in H. discriminate H. Qed.

(** * The decoder on a hex error *)

Section HexFailure.

Context {collab : Collaborators}.
Import Go.

(** [hex.DecodeString] stops at the first bad byte: on an error it has
    decoded fewer than half as many bytes as the text is long. *)
Lemma DecodeString_error_short s :
  snd (hex.DecodeString s) <> None ->
  (2 * length (fst (hex.DecodeString s)) < String.length s)%nat.
Proof.
  enough (H : (snd (hex.DecodeString s) <> None ->
               (2 * length (fst (hex.DecodeString s)) < String.length s)%nat) /\
              forall c,
                snd (hex.DecodeString (String c s)) <> None ->
                (2 * length (fst (hex.DecodeString (String c s)))
                 < String.length (String c s))%nat)
    by exact (proj1 H).
  induction s as [|a s [IH1 IH2]].
  - split; [intros H; now elim H|].
    intros c _. cbn. destruct (hex.fromHexChar c); cbn; lia.
  - split; [apply IH2|].
    intros c. cbn [hex.DecodeString].
    destruct (hex.fromHexChar c); [|cbn; lia].
    destruct (hex.fromHexChar a); [|cbn; lia].
    cbn [fst snd length String.length]. intros H. apply IH1 in H. lia.
Qed.

Lemma IP_String_short (b : list N) :
  (length b < 4)%nat -> net.IP_String ip6String b <> EmptyString.
Proof.
  destruct b as [|x [|y [|z [|t b]]]]; cbn; intros H; try discriminate. lia.
Qed.

Lemma slice_length s lo hi v :
  slice s lo hi = Ok v -> len v = hi - lo.
Proof.
  unfold slice.
  destruct ((0 <=? lo) && (lo <=? hi) && (hi <=? len s)) eqn:E; [|discriminate].
  apply andb_true_iff in E as [E E3]. apply andb_true_iff in E as [E1 E2].
  apply Z.leb_le in E1, E2, E3. intros [= <-].
  unfold len in *. rewrite length_take; [lia|]. rewrite length_drop. lia.
Qed.

(** Whatever the bad byte, an [0200] address whose hex text does not
    decode is logged and gives a non-empty address text ([<nil>] or a
    [?]-prefixed dump), which [mapDns] then looks up. *)
Lemma parseAddr_hex_error_nonempty saddr hx err w :
  slice saddr 0 4 = Ok "0200" ->
  slice saddr 8 16 = Ok hx ->
  snd (hex.DecodeString hx) = Some err ->
  exists addr,
    parseAddr saddr w = Ok (addr, el_Printf err w) /\ addr <> EmptyString.
Proof.
  intros Hf Hx He. unfold parseAddr. rewrite Hf. cbn [res_bind].
  rewrite String.eqb_refl, Hx. cbn [res_bind]. rewrite He.
  eexists. split; [reflexivity|].
  apply IP_String_short.
  apply slice_length in Hx. unfold len in Hx.
  assert (Hne : snd (hex.DecodeString hx) <> None) by (rewrite He; discriminate).
  apply DecodeString_error_short in Hne. lia.
Qed.

End HexFailure.

(** * The model on the specification's scenarios *)

Example parseAuditHeader_headerless :
  parseAuditHeader "no header" = Ok (EmptyString, 0, "no header").
Proof. reflexivity. Qed.

Example Atoi_values :
  strconv.Atoi "99999999999999999999" = 2 ^ 63 - 1 /\
  strconv.Atoi "-42" = -42 /\ strconv.Atoi "4x" = 0.
Proof. repeat split. Qed.

Example scenario_three_messages :
  exists g w,
    @runGroup fakes scenario_first scenario_rest w0 = Ok (g, w) /\
    Syscall g = "59" /\ UidMap g = <["0" := "root"]> ∅ /\
    Msgs g = scenario_first :: scenario_rest.
Proof. eexists _, _. repeat split; vm_compute; reflexivity. Qed.

(** * Further properties: the header parser *)

Section HeaderEdges.

Import Go.

Lemma slice_to_take s n :
  0 <= n <= len s -> slice_to s n = Ok (take (Z.to_nat n) s).
Proof.
  intros H. unfold slice_to. rewrite slice_Ok by lia.
  now rewrite Z.sub_0_r.
Qed.

Lemma take_take n m s : (n <= m)%nat -> take n (take m s) = take n s.
Proof.
  revert m s; induction n as [|n IH]; intros m s H; [now destruct (take m s), s|].
  destruct m as [|m]; [lia|]. destruct s as [|c s]; [reflexivity|].
  cbn. now rewrite IH by lia.
Qed.

Lemma eqb_take_HasPrefix s p :
  String.eqb (take (String.length p) s) p = HasPrefix s p.
Proof.
  revert s; induction p as [|a p IH]; intros s; [now destruct s|].
  destruct s as [|b s]; [reflexivity|].
  cbn. rewrite (Ascii.eqb_sym b a). now rewrite IH.
Qed.

Lemma HasPrefix_split s p :
  HasPrefix s p = true -> s = (p ++ drop (String.length p) s)%string.
Proof.
  revert s; induction p as [|a p IH]; intros s H; [reflexivity|].
  destruct s as [|b s]; [discriminate|]. cbn in H.
  destruct (Ascii.eqb_spec a b) as [->|]; [|discriminate].
  rewrite app_String. cbn [String.length drop]. f_equal. now apply IH.
Qed.

Lemma HasPrefix_take s p n :
  (String.length p <= n)%nat -> HasPrefix (take n s) p = HasPrefix s p.
Proof.
  revert s n; induction p as [|a p IH]; intros s n H; [reflexivity|].
  destruct n as [|n]; [cbn in H; lia|]. destruct s as [|b s]; [reflexivity|].
  cbn. destruct (Ascii.eqb a b); [apply IH; cbn in H; lia | reflexivity].
Qed.

(** The first [c] of a prefix of [s] is the first [c] of [s], if the
    prefix reaches it. *)
Lemma IndexByte_take s c n :
  IndexByte (take n s) c =
    if (0 <=? IndexByte s c) && (IndexByte s c <? Z.of_nat n)
    then IndexByte s c else -1.
Proof.
  revert n; induction s as [|b s IH]; intros n; [now destruct n|].
  destruct n as [|n].
  - cbn [take]. change (IndexByte EmptyString c) with (-1).
    destruct (Z.leb_spec 0 (IndexByte (String b s) c)); [|reflexivity].
    destruct (Z.ltb_spec (IndexByte (String b s) c) (Z.of_nat 0)); [lia | reflexivity].
  - cbn [take IndexByte]. destruct (Ascii.eqb b c); [reflexivity|].
    rewrite IH.
    destruct (IndexByte_bounds s c) as [E|E].
    + rewrite E. reflexivity.
    + destruct (Z.ltb_spec (IndexByte s c) 0); [lia|].
      destruct (Z.leb_spec 0 (IndexByte s c)); [|lia].
      destruct (Z.leb_spec 0 (IndexByte s c + 1)); [|lia].
      cbn [andb].
      destruct (Z.ltb_spec (IndexByte s c) (Z.of_nat n));
        destruct (Z.ltb_spec (IndexByte s c + 1) (Z.of_nat (S n))); try lia;
        [|reflexivity].
      destruct (Z.ltb_spec (IndexByte s c) 0); [lia | reflexivity].
Qed.

Lemma IndexByte_audit s :
  HasPrefix s "audit(" = true ->
  IndexByte s ":" = -1 \/ 6 <= IndexByte s ":".
Proof.
  intros H. apply HasPrefix_split in H. rewrite H.
  set (t := drop (String.length "audit(") s).
  destruct (IndexByte_bounds t ":") as [E|E].
  - left. apply IndexByte_app_none; [reflexivity | exact E].
  - right. rewrite IndexByte_app_skip; [|reflexivity|lia].
    change (len "audit(") with 6. lia.
Qed.

(** What [parseAuditHeader] computes on data that starts with [audit(] and
    has its first [)] at an offset of at least 7. *)
Lemma parseAuditHeader_audit data :
  HasPrefix data "audit(" = true ->
  HEADER_MIN_LENGTH <= Index data headerEndChar ->
  let stop := Index data headerEndChar in
  let header := take (Z.to_nat stop) data in
  let sep := IndexByte header headerSepChar in
  parseAuditHeader data =
    if sep <? 0 then Panic
    else if len data <? stop + 3 then Panic
    else Ok (take (Z.to_nat (sep - 6)) (drop 6 header),
             strconv.Atoi (drop (Z.to_nat (sep + 1)) header),
             drop (Z.to_nat (stop + 3)) data).
Proof.
  intros Hp Hs stop header sep. unfold parseAuditHeader. fold stop.
  unfold HEADER_MIN_LENGTH in *.
  destruct (Z.ltb_spec stop 7); [lia|].
  destruct (Index_bounds data headerEndChar) as [E|[_ Hb]]; [fold stop in E; lia|].
  fold stop in Hb. change (len headerEndChar) with 1 in Hb.
  rewrite slice_to_take by lia. cbn [res_bind]. fold header.
  assert (Hlen : len header = stop) by (apply len_take; lia).
  rewrite slice_to_take by (unfold HEADER_START_POS; lia). cbn [res_bind].
  unfold header at 1. rewrite take_take by (unfold HEADER_START_POS; lia).
  change (Z.to_nat HEADER_START_POS) with (String.length "audit(").
  rewrite eqb_take_HasPrefix, Hp.
  assert (Hph : HasPrefix header "audit(" = true).
  { unfold header. rewrite HasPrefix_take; [exact Hp | cbn; lia]. }
  fold sep.
  destruct (IndexByte_bounds header headerSepChar) as [E|E]; fold sep in E.
  - rewrite E. reflexivity.
  - destruct (IndexByte_audit header Hph) as [E'|E'];
      change (IndexByte header ":") with sep in E'; [lia|].
    destruct (Z.ltb_spec sep 0); [lia|].
    unfold HEADER_START_POS.
    rewrite slice_Ok by lia. cbn [res_bind].
    rewrite slice_from_Ok by lia. cbn [res_bind].
    destruct (Z.ltb_spec (len data) (stop + 3)).
    + unfold slice_from, slice.
      replace ((0 <=? stop + 3) && (stop + 3 <=? len data) && (len data <=? len data))
        with false; [reflexivity|].
      symmetry. apply andb_false_iff. left. apply andb_false_iff. right.
      apply Z.leb_gt. lia.
    + rewrite slice_from_Ok by lia. reflexivity.
Qed.

End HeaderEdges.

Section HeaderProperties.

Import Go.

Lemma parseAuditHeader_untouched data :
  HasPrefix data "audit(" = false \/ Index data headerEndChar < HEADER_MIN_LENGTH ->
  parseAuditHeader data = Ok (EmptyString, 0, data).
Proof.
  intros H. unfold parseAuditHeader.
  destruct (Z.ltb_spec (Index data headerEndChar) HEADER_MIN_LENGTH) as [|Hs];
    [reflexivity|].
  destruct H as [Hp|]; [|lia]. unfold HEADER_MIN_LENGTH in Hs.
  destruct (Index_bounds data headerEndChar) as [E|[_ Hb]]; [lia|].
  change (len headerEndChar) with 1 in Hb.
  rewrite slice_to_take by lia. cbn [res_bind].
  rewrite slice_to_take
    by (unfold HEADER_START_POS; rewrite len_take by lia; lia).
  cbn [res_bind]. rewrite take_take by (unfold HEADER_START_POS; lia).
  change (Z.to_nat HEADER_START_POS) with (String.length "audit(").
  now rewrite eqb_take_HasPrefix, Hp.
Qed.

(** X1.  A datagram that does not start with [audit(], or whose first [)]
    comes before offset 7 (or not at all), is never a failure: it becomes
    a message with the sequence number 0, an empty timestamp, and its data
    untouched. *)
Theorem NewAuditMessage_headerless t data :
  HasPrefix data "audit(" = false \/ Index data headerEndChar < HEADER_MIN_LENGTH ->
  NewAuditMessage t data = Ok (mkAuditMessage t data 0 EmptyString).
Proof.
  intros H. unfold NewAuditMessage.
  rewrite parseAuditHeader_untouched by exact H. reflexivity.
Qed.

Lemma NewAuditMessage_headerless_witness :
  NewAuditMessage SYSCALL "arch=c000003e syscall=59 (no header)"
  = Ok (mkAuditMessage SYSCALL "arch=c000003e syscall=59 (no header)" 0 EmptyString).
Proof.
  apply NewAuditMessage_headerless. left. reflexivity.
Defined.

(** [Atoi] gives 0 for text that is empty or starts with a byte that is
    neither a digit nor a sign. *)
Lemma Atoi_not_number s :
  match s with
  | EmptyString => True
  | String c _ => strconv.digit c = None /\ c <> "+"%char /\ c <> "-"%char
  end ->
  strconv.Atoi s = 0.
Proof.
  destruct s as [|c s]; [reflexivity|]. intros (Hd & Hp & Hm).
  assert (Ep : Ascii.eqb c "+" = false) by now apply Ascii.eqb_neq.
  assert (Em : Ascii.eqb c "-" = false) by now apply Ascii.eqb_neq.
  unfold strconv.Atoi.
  destruct ((0 <? len (String c s)) && (len (String c s) <? 19)).
  - rewrite Em, Ep. cbn [orb andb strconv.atoiSmall]. now rewrite Hd.
  - unfold strconv.ParseInt. rewrite Em, Ep. cbn [orb].
    unfold strconv.ParseUint. cbn [strconv.parseUintLoop]. now rewrite Hd.
Qed.

(** X2.  The header is split at its first [:]: for data
    [audit(<ts>:<seqText>)] followed by any two bytes and a payload, with no
    [)] in [<ts>] and [<seqText>] and no [:] in [<ts>], the timestamp is
    [<ts>], the sequence number is what [Atoi] makes of [<seqText>], and the
    payload is what follows the two bytes, which are not looked at.  Text
    that is not a number gives the sequence number 0 and no failure. *)
Theorem parseAuditHeader_split ts seqText (a b : ascii) rest :
  IndexByte ts ")" = -1 ->
  IndexByte ts ":" = -1 ->
  IndexByte seqText ")" = -1 ->
  let data := ("audit(" ++ ts ++ ":" ++ seqText ++ ")" ++ String a (String b rest))%string in
  parseAuditHeader data = Ok (ts, strconv.Atoi seqText, rest) /\
  (match seqText with
   | EmptyString => True
   | String c _ => strconv.digit c = None /\ c <> "+"%char /\ c <> "-"%char
   end ->
   parseAuditHeader data = Ok (ts, 0, rest)).
Proof.
  intros Hr Hc Hs data.
  enough (H : parseAuditHeader data = Ok (ts, strconv.Atoi seqText, rest)).
  { split; [exact H|]. intros Hn. now rewrite H, Atoi_not_number. }
  set (hdr := ("audit(" ++ ts ++ ":" ++ seqText)%string).
  assert (Hdata : data = (hdr ++ String ")" (String a (String b rest)))%string).
  { unfold data, hdr. rewrite !app_assoc_s. reflexivity. }
  assert (Hnr : IndexByte hdr ")" = -1).
  { unfold hdr. repeat (apply IndexByte_app_none; try reflexivity; try assumption). }
  assert (Hstop : Index data headerEndChar = len hdr).
  { unfold headerEndChar. rewrite Index_byte, Hdata. now apply IndexByte_app. }
  assert (Hlen : len hdr = 6 + len ts + 1 + len seqText).
  { unfold hdr. rewrite !len_app.
    change (len "audit(") with 6. change (len ":") with 1. lia. }
  pose proof (len_nonneg ts). pose proof (len_nonneg seqText).
  unfold parseAuditHeader. rewrite Hstop.
  destruct (Z.ltb_spec (len hdr) HEADER_MIN_LENGTH) as [Hlt|_];
    [unfold HEADER_MIN_LENGTH in Hlt; lia|].
  rewrite Hdata at 1. rewrite slice_to_app. cbn [res_bind].
  assert (Hpre : slice_to hdr HEADER_START_POS = Ok "audit(")
    by apply (slice_to_app "audit(").
  rewrite Hpre. cbn [res_bind]. rewrite String.eqb_refl.
  assert (Hsep : IndexByte hdr headerSepChar = 6 + len ts).
  { unfold hdr, headerSepChar.
    assert (E : IndexByte (ts ++ ":" ++ seqText) ":" = len ts)
      by exact (IndexByte_app ts ":" seqText Hc).
    rewrite IndexByte_app_skip; rewrite ?E; [reflexivity | reflexivity | lia]. }
  rewrite Hsep.
  assert (Htime : slice hdr HEADER_START_POS (6 + len ts) = Ok ts)
    by apply (slice_app "audit(").
  rewrite Htime. cbn [res_bind].
  assert (Hseq : slice_from hdr (6 + len ts + 1) = Ok seqText).
  { unfold hdr. rewrite <- !app_assoc_s.
    replace (6 + len ts + 1) with (len (("audit(" ++ ts) ++ ":")%string)
      by (rewrite !len_app; reflexivity).
    apply slice_from_app. }
  rewrite Hseq. cbn [res_bind].
  assert (Hpay : slice_from data (len hdr + 3) = Ok rest).
  { rewrite Hdata.
    change (hdr ++ String ")" (String a (String b rest)))%string
      with (hdr ++ (String ")" (String a (String b EmptyString)) ++ rest))%string.
    rewrite <- app_assoc_s.
    replace (len hdr + 3)
      with (len (hdr ++ String ")" (String a (String b EmptyString)))%string)
      by (rewrite len_app; reflexivity).
    apply slice_from_app. }
  rewrite Hpay. reflexivity.
Qed.

Lemma parseAuditHeader_split_witness :
  parseAuditHeader "audit(1464163771.720:x20)##type=CWD" =
    Ok ("1464163771.720", 0, "type=CWD").
Proof.
  refine (proj2 (parseAuditHeader_split "1464163771.720" "x20" "#" "#" "type=CWD"
                   eq_refl eq_refl eq_refl) _).
  repeat split; discriminate.
Defined.

(** X3.  [parseAuditHeader] panics exactly on data that starts with
    [audit(], has its first [)] at an offset of at least 7, and either has
    no [:] before that [)] or has fewer than two bytes after it. *)
Theorem parseAuditHeader_panics_iff data :
  parseAuditHeader data = Panic <->
  HasPrefix data "audit(" = true /\
  HEADER_MIN_LENGTH <= Index data headerEndChar /\
  (IndexByte data headerSepChar < 0 \/
   Index data headerEndChar <= IndexByte data headerSepChar \/
   len data < Index data headerEndChar + 3).
Proof.
  destruct (HasPrefix data "audit(") eqn:Hp.
  2:{ rewrite parseAuditHeader_untouched by now left.
      split; [discriminate | intros (H & _); discriminate]. }
  destruct (Z.lt_ge_cases (Index data headerEndChar) HEADER_MIN_LENGTH) as [Hs|Hs].
  { rewrite parseAuditHeader_untouched by now right.
    split; [discriminate | intros (_ & H & _); lia]. }
  rewrite (parseAuditHeader_audit data Hp Hs). cbv zeta.
  rewrite IndexByte_take.
  unfold HEADER_MIN_LENGTH in *.
  rewrite Z2Nat.id by lia.
  set (stop := Index data headerEndChar) in *.
  set (i := IndexByte data headerSepChar).
  destruct (Z.leb_spec 0 i); destruct (Z.ltb_spec i stop); cbn [andb].
  - destruct (Z.ltb_spec i 0); [lia|].
    destruct (Z.ltb_spec (len data) (stop + 3)).
    + split; [intros _; repeat split; try lia | reflexivity].
    + split; [discriminate | intros (_ & _ & [H'|[H'|H']]); lia].
  - split; [intros _; repeat split; lia | reflexivity].
  - split; [intros _; repeat split; lia | reflexivity].
  - split; [intros _; repeat split; lia | reflexivity].
Qed.

Lemma parseAuditHeader_panics_iff_witness :
  parseAuditHeader "audit(1464163771.720-20): type=CWD" = Panic.
Proof.
  apply (proj2 (parseAuditHeader_panics_iff "audit(1464163771.720-20): type=CWD")).
  split; [reflexivity|]. split; [vm_compute; discriminate|].
  right. left. vm_compute. discriminate.
Defined.

End HeaderProperties.

(** * Further properties: the identity cache *)

Section IdentityCache.

Context {collab : Collaborators}.
Import Go.

Lemma getUsername_hit uid u w :
  uidMap w !! uid = Some u ->
  getUsername uid w =
    (u, mkWorld (uidMap w) (el w) (env w) (now w)
          (getUsernameCalls w ++ [uid])%list (cGetCalls w)).
Proof. intros H. unfold getUsername. now rewrite H. Qed.

Lemma getUsername_lookup uid w :
  uidMap (snd (getUsername uid w)) !! uid = Some (fst (getUsername uid w)).
Proof.
  unfold getUsername. destruct (uidMap w !! uid) as [u|] eqn:E; cbn [fst snd uidMap].
  - exact E.
  - apply lookup_insert_eq.
Qed.

Lemma getUsername_cache_grows uid w :
  uidMap w ⊆ uidMap (snd (getUsername uid w)).
Proof.
  unfold getUsername. destruct (uidMap w !! uid) as [u|] eqn:E; cbn [fst snd uidMap].
  - reflexivity.
  - apply insert_subseteq, E.
Qed.

(** X4.  [getUsername] caches what it returns: after a call the
    process-wide [uidMap] maps the uid to the returned name and has lost
    no entry, and a second call for the same uid returns the same name
    from the cache, without going to the user database again. *)
Theorem getUsername_caches uid w :
  let r := getUsername uid w in
  uidMap (snd r) !! uid = Some (fst r) /\
  uidMap w ⊆ uidMap (snd r) /\
  fst (getUsername uid (snd r)) = fst r /\
  uidMap (snd (getUsername uid (snd r))) = uidMap (snd r) /\
  env (snd (getUsername uid (snd r))) = env (snd r).
Proof.
  cbv zeta. pose proof (getUsername_lookup uid w) as H1.
  refine (conj H1 (conj (getUsername_cache_grows uid w) _)).
  rewrite (getUsername_hit _ _ _ H1). repeat split.
Qed.

(** X5.  A uid the user database does not know is resolved to
    [UNKNOWN_USER], and that answer sticks: in every later state whose
    cache still holds what this call left, the uid resolves to
    [UNKNOWN_USER] without a new look at the user database, whatever the
    database would now say. *)
Theorem getUsername_unknown_sticks uid w :
  uidMap w !! uid = None ->
  fst (LookupId uid (env w)) = None ->
  fst (getUsername uid w) = "UNKNOWN_USER" /\
  forall w2,
    uidMap (snd (getUsername uid w)) ⊆ uidMap w2 ->
    fst (getUsername uid w2) = "UNKNOWN_USER" /\
    env (snd (getUsername uid w2)) = env w2.
Proof.
  intros Hm Hl.
  assert (H1 : fst (getUsername uid w) = "UNKNOWN_USER")
    by (unfold getUsername; rewrite Hm, Hl; reflexivity).
  split; [exact H1|]. intros w2 Hsub.
  assert (H2 : uidMap w2 !! uid = Some "UNKNOWN_USER").
  { eapply lookup_weaken; [|exact Hsub].
    unfold getUsername. rewrite Hm, Hl. cbn [snd uidMap]. apply lookup_insert_eq. }
  unfold getUsername. rewrite H2. split; reflexivity.
Qed.

(** ** Runs of the uid loop *)

Lemma extract_no_space key bound data v :
  extract key bound data = Some v -> IndexByte v spaceChar = -1.
Proof.
  unfold extract. cbv zeta.
  destruct (Index data key <? 0); [discriminate|].
  set (rest := drop _ data).
  destruct (IndexByte_bounds rest spaceChar) as [E|E].
  - rewrite E. cbn [Z.ltb Z.compare].
    destruct (len rest >? bound); [discriminate|]. now intros [= <-].
  - destruct (Z.ltb_spec (IndexByte rest spaceChar) 0); [lia|].
    intros [= <-]. rewrite IndexByte_take.
    rewrite Z2Nat.id by lia.
    destruct (Z.ltb_spec (IndexByte rest spaceChar) (IndexByte rest spaceChar));
      [lia|]. now rewrite andb_false_r.
Qed.

Lemma uid_run_trans g1 w1 g2 w2 g3 w3 :
  uid_run g1 w1 g2 w2 -> uid_run g2 w2 g3 w3 -> uid_run g1 w1 g3 w3.
Proof.
  induction 1 as [|uid g w g' w' Hu _ IH]; intros H; [exact H|].
  eapply uid_run_step; [exact Hu | now apply IH].
Qed.

Lemma mapUids_loop_run fuel data g w :
  (String.length data < fuel)%nat ->
  exists g' w', mapUids_loop fuel data g w = Ok (g', w') /\ uid_run g w g' w'.
Proof.
  revert data g w; induction fuel as [|fuel IH]; intros data g w Hf; [lia|].
  rewrite mapUids_loop_S.
  destruct (extract "uid=" 5 data) as [uid|] eqn:E.
  2:{ exists g, w. split; [reflexivity | constructor]. }
  pose proof (extract_no_space _ _ _ _ E) as Hsp.
  apply extract_Some in E as (Hi & Hb & _). change (len "uid=") with 4 in Hb.
  pose proof (len_nonneg uid) as Hu. cbv zeta.
  destruct (Z.geb_spec (Index data "uid=" + 4 + len uid + 1) (len data)) as [|Hn].
  - exists (fst (recordUid uid g w)), (snd (recordUid uid g w)).
    split; [now destruct (recordUid uid g w)|].
    eapply uid_run_step; [exact Hsp | constructor].
  - destruct (IH (drop (Z.to_nat (Index data "uid=" + 4 + len uid + 1)) data)
                (fst (recordUid uid g w)) (snd (recordUid uid g w)))
      as (g' & w' & Hrun & Hr).
    { rewrite length_drop. unfold len in *. lia. }
    exists g', w'. split; [exact Hrun|].
    eapply uid_run_step; [exact Hsp | exact Hr].
Qed.

(** Every [AddMessage] that returns either leaves both uid maps alone or
    is a run of the uid loop from a group with the same [UidMap]. *)
Lemma AddMessage_uid_run g am w g' w' :
  AddMessage g am w = Ok (g', w') ->
  (UidMap g' = UidMap g /\ uidMap w' = uidMap w) \/
  (exists g1, UidMap g1 = UidMap g /\ uid_run g1 w g' w').
Proof.
  destruct (type_cases (Type_ am)) as [Ht | [Ht | [Ht | [Ht Hn]]]].
  - rewrite AddMessage_stored by exact Ht. intros [= <- <-]. left. now split.
  - rewrite AddMessage_SOCKADDR, mapDns_extract by exact Ht.
    destruct (extract "saddr=" SOCKADDR_LENGTH (Data am)) as [saddr|];
      cbn [res_bind fst snd].
    2:{ intros [= <- <-]. left. now split. }
    destruct (parseAddr saddr w) as [[ip w1]| |] eqn:E; cbn [res_bind];
      try discriminate.
    apply parseAddr_world in E as (Hc & _).
    unfold lookupHost. cbn [fst snd]. intros [= <- <-]. left.
    destruct (snd (fst (cGet ip (env w1)))); split; first [reflexivity | exact Hc].
  - rewrite AddMessage_SYSCALL by exact Ht. unfold mapUids.
    set (g1 := match extract "syscall=" 5 (Data am) with
               | None => _ | Some v => _ end).
    destruct (mapUids_loop_run (S (String.length (Data am))) (Data am) g1 w)
      as (g2 & w2 & -> & Hr); [lia|].
    intros [= <- <-]. right. exists g1. split; [|exact Hr].
    subst g1. now destruct (extract "syscall=" 5 (Data am)).
  - rewrite AddMessage_other by assumption. unfold mapUids.
    destruct (mapUids_loop_run (S (String.length (Data am))) (Data am)
                (set_Msgs (Msgs g ++ [am])%list g) w)
      as (g2 & w2 & -> & Hr); [lia|].
    intros [= <- <-]. right. eexists. split; [|exact Hr]. reflexivity.
Qed.

Lemma recordUid_cache uid g w :
  uidMap w ⊆ uidMap (snd (recordUid uid g w)).
Proof.
  unfold recordUid. destruct (UidMap g !! uid); cbn [snd]; [reflexivity|].
  apply getUsername_cache_grows.
Qed.

Lemma recordUid_agrees uid g w :
  UidMap g ⊆ uidMap w ->
  UidMap (fst (recordUid uid g w)) ⊆ uidMap (snd (recordUid uid g w)).
Proof.
  intros H. unfold recordUid. destruct (UidMap g !! uid); cbn [fst snd]; [exact H|].
  cbn [UidMap set_UidMap]. apply insert_subseteq_l.
  - apply getUsername_lookup.
  - etransitivity; [exact H | apply getUsername_cache_grows].
Qed.

Lemma recordUid_keys uid g w k :
  is_Some (UidMap (fst (recordUid uid g w)) !! k) ->
  k = uid \/ is_Some (UidMap g !! k).
Proof.
  unfold recordUid. destruct (UidMap g !! uid); cbn [fst]; [now right|].
  cbn [UidMap set_UidMap].
  destruct (decide (uid = k)) as [->|Hne]; [now left|].
  rewrite lookup_insert_ne by exact Hne. now right.
Qed.

Lemma uid_run_inv g w g' w' :
  uid_run g w g' w' ->
  uidMap w ⊆ uidMap w' /\
  (UidMap g ⊆ uidMap w -> UidMap g' ⊆ uidMap w') /\
  ((forall k, is_Some (UidMap g !! k) -> IndexByte k spaceChar = -1) ->
   forall k, is_Some (UidMap g' !! k) -> IndexByte k spaceChar = -1).
Proof.
  induction 1 as [g w|uid g w g' w' Hu _ (IH1 & IH2 & IH3)].
  - refine (conj _ (conj _ _)); [reflexivity | auto | auto].
  - refine (conj _ (conj _ _)).
    + etransitivity; [apply recordUid_cache | exact IH1].
    + intros H. apply IH2, recordUid_agrees, H.
    + intros H. apply IH3. intros k Hk.
      apply recordUid_keys in Hk as [->|Hk]; [exact Hu | now apply H].
Qed.

Lemma AddMessage_uid_inv g am w g' w' :
  AddMessage g am w = Ok (g', w') ->
  uidMap w ⊆ uidMap w' /\
  (UidMap g ⊆ uidMap w -> UidMap g' ⊆ uidMap w') /\
  ((forall k, is_Some (UidMap g !! k) -> IndexByte k spaceChar = -1) ->
   forall k, is_Some (UidMap g' !! k) -> IndexByte k spaceChar = -1).
Proof.
  intros H. apply AddMessage_uid_run in H as [[Hg Hw]|(g1 & Hg & Hr)].
  - rewrite Hg, Hw. refine (conj _ (conj _ _)); [reflexivity | auto | auto].
  - apply uid_run_inv in Hr. now rewrite Hg in Hr.
Qed.

Lemma AddMessages_uid_inv ams g w g' w' :
  AddMessages g ams w = Ok (g', w') ->
  uidMap w ⊆ uidMap w' /\
  (UidMap g ⊆ uidMap w -> UidMap g' ⊆ uidMap w') /\
  ((forall k, is_Some (UidMap g !! k) -> IndexByte k spaceChar = -1) ->
   forall k, is_Some (UidMap g' !! k) -> IndexByte k spaceChar = -1).
Proof.
  revert g w; induction ams as [|am ams IH]; intros g w; cbn [AddMessages].
  - intros [= <- <-]. refine (conj _ (conj _ _)); [reflexivity | auto | auto].
  - destruct (AddMessage g am w) as [[g1 w1]| |] eqn:E; cbn [res_bind fst snd];
      try discriminate.
    intros H. apply IH in H as (H1 & H2 & H3).
    apply AddMessage_uid_inv in E as (E1 & E2 & E3).
    refine (conj _ (conj _ _)); [etransitivity; eassumption | auto | auto].
Qed.

(** X6.  Processing messages never evicts or overwrites an entry of the
    process-wide identity cache: whatever [uidMap] held before a sequence
    of [AddMessage] operations, it still holds after. *)
Theorem identity_cache_only_grows ams g w g' w' :
  AddMessages g ams w = Ok (g', w') -> uidMap w ⊆ uidMap w'.
Proof. intros H. now apply AddMessages_uid_inv in H. Qed.

(** X7.  A group's [UidMap] agrees with the identity cache: for a group
    created by [NewAuditMessageGroup] and fed any messages, every uid of
    the group's [UidMap] is in the process-wide [uidMap] with the same
    username. *)
Theorem group_uids_agree_with_cache am ams w g' w' :
  runGroup am ams w = Ok (g', w') -> UidMap g' ⊆ uidMap w'.
Proof.
  unfold runGroup, NewAuditMessageGroup.
  destruct (AddMessage _ am w) as [[g1 w1]| |] eqn:E; cbn [res_bind fst snd];
    try discriminate.
  intros H. apply AddMessages_uid_inv in H as (_ & H & _). apply H.
  apply AddMessage_uid_inv in E as (_ & E & _). apply E.
  cbn [UidMap]. apply map_empty_subseteq.
Qed.

(** X8.  No key of a group's [UidMap] contains a space: the uid text a
    group records always stops at the first space after [uid=]. *)
Theorem uid_keys_have_no_space am ams w g' w' k :
  runGroup am ams w = Ok (g', w') ->
  is_Some (UidMap g' !! k) -> IndexByte k spaceChar = -1.
Proof.
  unfold runGroup, NewAuditMessageGroup.
  destruct (AddMessage _ am w) as [[g1 w1]| |] eqn:E; cbn [res_bind fst snd];
    try discriminate.
  intros H. apply AddMessages_uid_inv in H as (_ & _ & H). apply H.
  apply AddMessage_uid_inv in E as (_ & _ & E). apply E.
  cbn [UidMap]. intros k' [x Hx]. rewrite lookup_empty in Hx. discriminate.
Qed.

End IdentityCache.

Lemma getUsername_unknown_sticks_witness :
  fst (@getUsername fakes "4242" w0) = "UNKNOWN_USER" /\
  fst (@getUsername fakes "4242" (snd (@getUsername fakes "4242" w0)))
  = "UNKNOWN_USER".
Proof.
  destruct (@getUsername_unknown_sticks fakes "4242" w0 eq_refl eq_refl)
    as (H1 & H2).
  split; [exact H1|].
  exact (proj1 (H2 (snd (@getUsername fakes "4242" w0)) (reflexivity _))).
Defined.

Lemma identity_cache_only_grows_witness :
  exists g' w',
    @AddMessages fakes g0 [uid_msg; msg CWD "cwd=/"] cached_world = Ok (g', w') /\
    uidMap w' !! "1000" = Some "alice".
Proof.
  destruct (@AddMessages fakes g0 [uid_msg; msg CWD "cwd=/"] cached_world)
    as [[g' w']| |] eqn:E; [| vm_compute in E; discriminate E ..].
  exists g', w'. split; [reflexivity|].
  eapply lookup_weaken;
    [| exact (@identity_cache_only_grows fakes _ _ _ _ _ E)].
  reflexivity.
Defined.

Lemma group_uids_agree_with_cache_witness :
  exists g' w',
    @runGroup fakes scenario_first scenario_rest w0 = Ok (g', w') /\
    UidMap g' ⊆ uidMap w'.
Proof.
  destruct (@runGroup fakes scenario_first scenario_rest w0)
    as [[g' w']| |] eqn:E; [| vm_compute in E; discriminate E ..].
  exists g', w'. split; [reflexivity|].
  exact (@group_uids_agree_with_cache fakes _ _ _ _ _ E).
Defined.

Lemma uid_keys_have_no_space_witness :
  exists g' w',
    @runGroup fakes uid_msg [] w0 = Ok (g', w') /\
    Go.IndexByte "1000" spaceChar = -1.
Proof.
  destruct (@runGroup fakes uid_msg [] w0)
    as [[g' w']| |] eqn:E; [| vm_compute in E; discriminate E ..].
  exists g', w'. split; [reflexivity|].
  apply (@uid_keys_have_no_space fakes _ _ _ _ _ "1000" E).
  vm_compute in E. injection E as <- _. vm_compute. eauto.
Defined.

(** * Further properties: the dispatch on the message type *)

Section Dispatch.

Context {collab : Collaborators}.
Import Go.

Lemma parseAddr_frame saddr w ip w1 :
  parseAddr saddr w = Ok (ip, w1) ->
  uidMap w1 = uidMap w /\ env w1 = env w /\ now w1 = now w /\
  getUsernameCalls w1 = getUsernameCalls w /\ cGetCalls w1 = cGetCalls w /\
  (el w1 = el w \/ exists err, el w1 = (el w ++ [err])%list).
Proof.
  unfold parseAddr.
  destruct (slice saddr 0 4) as [family| |]; cbn [res_bind]; try discriminate.
  destruct (String.eqb family "0200").
  - destruct (slice saddr 8 16) as [hx| |]; cbn [res_bind]; try discriminate.
    destruct (snd (hex.DecodeString hx)) as [err|]; intros [= _ <-];
      repeat split; [right; now exists err | now left].
  - intros [= _ <-]; repeat split. now left.
Qed.

(** X9.  The enrichments do not mix.  A message that is not a SOCKADDR one
    never touches the [DnsMap], the two DNS flags, the DNS cache or the
    error log; a SOCKADDR message never touches the [UidMap], the
    [Syscall] field or the identity cache; only a SYSCALL message can
    change the [Syscall] field; an EXECVE or CWD message is stored and
    changes nothing else, whatever its text. *)
Theorem AddMessage_enrichments_apart g am w g' w' :
  AddMessage g am w = Ok (g', w') ->
  (Type_ am <> SOCKADDR ->
     DnsMap g' = DnsMap g /\ gotSaddr g' = gotSaddr g /\ gotDNS g' = gotDNS g /\
     cGetCalls w' = cGetCalls w /\ el w' = el w) /\
  (Type_ am = SOCKADDR ->
     UidMap g' = UidMap g /\ Syscall g' = Syscall g /\
     uidMap w' = uidMap w /\ getUsernameCalls w' = getUsernameCalls w) /\
  (Type_ am <> SYSCALL -> Syscall g' = Syscall g) /\
  (Type_ am = EXECVE \/ Type_ am = CWD ->
     g' = set_Msgs (Msgs g ++ [am])%list g /\ w' = w).
Proof.
  destruct (type_cases (Type_ am)) as [Ht | [Ht | [Ht | [Ht Hn]]]].
  - rewrite AddMessage_stored by exact Ht. intros [= <- <-].
    refine (conj _ (conj _ (conj _ _))); intros _; repeat split.
  - rewrite AddMessage_SOCKADDR, mapDns_extract by exact Ht.
    assert (Hns : Type_ am <> SYSCALL) by (rewrite Ht; discriminate).
    assert (Hne : ~ (Type_ am = EXECVE \/ Type_ am = CWD))
      by (rewrite Ht; intros [H|H]; discriminate H).
    destruct (extract "saddr=" SOCKADDR_LENGTH (Data am)) as [saddr|];
      cbn [res_bind fst snd].
    2:{ intros [= <- <-].
        refine (conj _ (conj _ (conj _ _))); intros H; try contradiction;
          repeat split. }
    destruct (parseAddr saddr w) as [[ip w1]| |] eqn:E; cbn [res_bind];
      try discriminate.
    apply parseAddr_frame in E as (Hu & _ & _ & Hc & _).
    unfold lookupHost. cbn [fst snd]. intros [= <- <-].
    refine (conj _ (conj _ (conj _ _))); intros H; try contradiction.
    + destruct (snd (fst (cGet ip (env w1)))); repeat split; assumption.
    + now destruct (snd (fst (cGet ip (env w1)))).
  - rewrite AddMessage_SYSCALL by exact Ht.
    set (g1 := match extract "syscall=" 5 (Data am) with
               | None => _ | Some v => _ end).
    destruct (mapUids_total g1 am w) as (g2 & w2 & -> & _ & Hfr).
    pose proof (uid_frame_fields _ _ _ _ Hfr) as (_ & _ & _ & _ & F5 & _ & F7 & F8).
    destruct Hfr as [_ Fel _ Fc].
    intros [= <- <-].
    assert (Hg1 : DnsMap g1 = DnsMap g /\ gotSaddr g1 = gotSaddr g /\
                  gotDNS g1 = gotDNS g)
      by (subst g1; destruct (extract "syscall=" 5 (Data am)); repeat split).
    destruct Hg1 as (D1 & D2 & D3).
    refine (conj _ (conj _ (conj _ _))).
    + intros _. repeat split; congruence.
    + intros H. rewrite Ht in H. discriminate H.
    + intros H. contradiction.
    + intros [H|H]; rewrite Ht in H; discriminate H.
  - rewrite AddMessage_other by assumption.
    destruct (mapUids_total (set_Msgs (Msgs g ++ [am])%list g) am w)
      as (g2 & w2 & -> & _ & Hfr).
    pose proof (uid_frame_fields _ _ _ _ Hfr) as (_ & _ & _ & _ & F5 & F6 & F7 & F8).
    destruct Hfr as [_ Fel _ Fc].
    intros [= <- <-].
    unfold scansUids in Ht. apply negb_true_iff in Ht.
    apply orb_false_iff in Ht as [Ht Hs]. apply orb_false_iff in Ht as [He Hc].
    apply Z.eqb_neq in He, Hc, Hs.
    refine (conj _ (conj _ (conj _ _))).
    + intros _. repeat split; assumption.
    + intros H. contradiction.
    + intros _. exact F6.
    + intros [H|H]; contradiction.
Qed.

Lemma AddMessages_fixed ams g w g' w' :
  AddMessages g ams w = Ok (g', w') ->
  amgSeq g' = amgSeq g /\ amgAuditTime g' = amgAuditTime g /\
  CompleteAfter g' = CompleteAfter g /\ Msgs g' = (Msgs g ++ ams)%list.
Proof.
  revert g w; induction ams as [|am ams IH]; intros g w; cbn [AddMessages].
  - intros [= <- <-]. rewrite app_nil_r. repeat split.
  - destruct (AddMessage g am w) as [[g1 w1]| |] eqn:E; cbn [res_bind fst snd];
      try discriminate.
    intros H. apply IH in H as (H1 & H2 & H3 & H4).
    apply AddMessage_inv in E as (E1 & E2 & E3 & E4 & _).
    rewrite H1, H2, H3, H4, E1, E2, E3, E4, <- app_assoc. repeat split.
Qed.

(** X10.  What a group is created with stays: whatever messages follow
    the first one, whatever their sequence numbers and timestamps, the
    group keeps the sequence number and the timestamp of its first message
    and the deadline set at creation (the clock then, plus two seconds),
    and its messages are the ones received, in arrival order. *)
Theorem group_fixed_at_creation am ams w g' w' :
  runGroup am ams w = Ok (g', w') ->
  amgSeq g' = Seq am /\ amgAuditTime g' = AuditTime am /\
  CompleteAfter g' = now w + COMPLETE_AFTER /\
  Msgs g' = am :: ams.
Proof.
  unfold runGroup, NewAuditMessageGroup.
  destruct (AddMessage _ am w) as [[g1 w1]| |] eqn:E; cbn [res_bind fst snd];
    try discriminate.
  intros H. apply AddMessages_fixed in H as (H1 & H2 & H3 & H4).
  apply AddMessage_inv in E as (E1 & E2 & E3 & E4 & _).
  cbn [amgSeq amgAuditTime CompleteAfter Msgs app] in E1, E2, E3, E4.
  rewrite H1, H2, H3, H4, E1, E2, E3, E4. repeat split.
Qed.

End Dispatch.

Lemma AddMessage_enrichments_apart_witness :
  exists g' w',
    @AddMessage fakes g0 (msg EXECVE "argc=2 a0=id a1=uid=0 saddr=0200") w0
      = Ok (g', w') /\
    UidMap g' = ∅ /\ getUsernameCalls w' = [] /\ cGetCalls w' = [].
Proof.
  destruct (@AddMessage fakes g0 (msg EXECVE "argc=2 a0=id a1=uid=0 saddr=0200") w0)
    as [[g' w']| |] eqn:E; [| vm_compute in E; discriminate E ..].
  exists g', w'. split; [reflexivity|].
  destruct (proj2 (proj2 (proj2 (@AddMessage_enrichments_apart fakes _ _ _ _ _ E)))
              (or_introl eq_refl)) as [-> ->].
  repeat split.
Defined.

Lemma group_fixed_at_creation_witness :
  exists g' w',
    @runGroup fakes scenario_first
      [mkAuditMessage CWD "cwd=/" 7 "another time"] w0 = Ok (g', w') /\
    amgSeq g' = 100 /\ amgAuditTime g' = "1464163771.720" /\
    CompleteAfter g' = 2000000000.
Proof.
  destruct (@runGroup fakes scenario_first
              [mkAuditMessage CWD "cwd=/" 7 "another time"] w0)
    as [[g' w']| |] eqn:E; [| vm_compute in E; discriminate E ..].
  exists g', w'. split; [reflexivity|].
  destruct (@group_fixed_at_creation fakes _ _ _ _ _ E) as (H1 & H2 & H3 & _).
  repeat split; assumption.
Defined.

(** * Further properties: the socket-address decoder *)

Section Decoder.

Context {collab : Collaborators}.
Import Go.

Lemma slice_short s lo hi : len s < hi -> slice s lo hi = Panic.
Proof.
  intros H. unfold slice.
  replace ((0 <=? lo) && (lo <=? hi) && (hi <=? len s)) with false; [reflexivity|].
  symmetry. apply andb_false_iff. right. apply Z.leb_gt. exact H.
Qed.

Lemma parseAddr_short saddr w : shortAddr saddr -> parseAddr saddr w = Panic.
Proof.
  unfold parseAddr. intros [H|[Hp H]].
  - now rewrite slice_short.
  - pose proof (HasPrefix_length _ _ Hp) as Hl. cbn in Hl.
    change (slice saddr 0 4) with (slice_to saddr 4).
    rewrite (slice_to_take saddr 4) by (unfold len; lia). cbn [res_bind].
    change (Z.to_nat 4) with (String.length "0200").
    rewrite eqb_take_HasPrefix, Hp. now rewrite slice_short.
Qed.

Lemma parseAddr_unsupported saddr w :
  4 <= len saddr -> HasPrefix saddr "0200" = false ->
  parseAddr saddr w = Ok (EmptyString, w).
Proof.
  intros Hl Hp. unfold parseAddr.
  change (slice saddr 0 4) with (slice_to saddr 4).
  rewrite (slice_to_take saddr 4) by lia. cbn [res_bind].
  change (Z.to_nat 4) with (String.length "0200").
  now rewrite eqb_take_HasPrefix, Hp.
Qed.

Lemma parseAddr_ipv4 saddr w :
  HasPrefix saddr "0200" = true -> 16 <= len saddr ->
  parseAddr saddr w =
    let r := hex.DecodeString (take 8 (drop 8 saddr)) in
    Ok (net.IP_String ip6String (fst r),
        match snd r with
        | Some err => el_Printf err w
        | None => w
        end).
Proof.
  intros Hp Hl. unfold parseAddr.
  change (slice saddr 0 4) with (slice_to saddr 4).
  rewrite (slice_to_take saddr 4) by lia. cbn [res_bind].
  change (Z.to_nat 4) with (String.length "0200").
  rewrite eqb_take_HasPrefix, Hp.
  rewrite slice_Ok by lia. reflexivity.
Qed.

Lemma parseAddr_cases saddr w :
  shortAddr saddr \/ exists ip w1, parseAddr saddr w = Ok (ip, w1).
Proof.
  unfold shortAddr.
  destruct (Z.lt_ge_cases (len saddr) 4) as [|Hl]; [now left; left|].
  destruct (HasPrefix saddr "0200") eqn:Hp.
  - destruct (Z.lt_ge_cases (len saddr) 16) as [|Hl']; [left; right; now split|].
    right. rewrite parseAddr_ipv4 by assumption. cbv zeta. eauto.
  - right. rewrite parseAddr_unsupported by assumption. eauto.
Qed.

(** X11.  [parseAddr] panics exactly on an address text of fewer than 4
    bytes, or of fewer than 16 bytes that starts with [0200]; on every
    other text it returns. *)
Theorem parseAddr_panics_iff saddr w :
  parseAddr saddr w = Panic <-> shortAddr saddr.
Proof.
  split; [|apply parseAddr_short].
  intros H. destruct (parseAddr_cases saddr w) as [Hs|(ip & w1 & E)];
    [exact Hs|]. rewrite E in H. discriminate H.
Qed.

(** [hex.DecodeString] gives at most one byte for two bytes of text. *)
Lemma DecodeString_length s :
  (2 * length (fst (hex.DecodeString s)) <= String.length s)%nat.
Proof.
  enough (H : (2 * length (fst (hex.DecodeString s)) <= String.length s)%nat /\
              forall c,
                (2 * length (fst (hex.DecodeString (String c s)))
                 <= String.length (String c s))%nat)
    by exact (proj1 H).
  induction s as [|a s [IH1 IH2]].
  - split; [cbn; lia|]. intros c. cbn. destruct (hex.fromHexChar c); cbn; lia.
  - split; [apply IH2|].
    intros c. cbn [hex.DecodeString].
    destruct (hex.fromHexChar c); [|cbn; lia].
    destruct (hex.fromHexChar a); [|cbn; lia].
    cbn [fst length String.length]. lia.
Qed.

Lemma dotted_nonempty a b c d : dotted a b c d <> EmptyString.
Proof.
  unfold dotted. destruct (Itoa_head a) as (x & s & -> & _).
  rewrite app_String. discriminate.
Qed.

Lemma IP_String_nonempty (bs : list N) :
  (length bs <= 4)%nat -> net.IP_String ip6String bs <> EmptyString.
Proof.
  destruct bs as [|x [|y [|z [|t [|u bs]]]]]; cbn [length]; intros H;
    try (cbn; discriminate); [|lia].
  apply (dotted_nonempty x y z t).
Qed.

(** X12.  The decoder returns the empty address exactly for the families
    it does not decode: for a text that starts with [0200] the address it
    returns is never empty, not even when the hex text is broken. *)
Theorem parseAddr_empty_iff_unsupported saddr w ip w1 :
  parseAddr saddr w = Ok (ip, w1) ->
  (ip = EmptyString <-> HasPrefix saddr "0200" = false).
Proof.
  intros H.
  destruct (Z.lt_ge_cases (len saddr) 4) as [Hl|Hl].
  { rewrite parseAddr_short in H by now left. discriminate H. }
  destruct (HasPrefix saddr "0200") eqn:Hp.
  - destruct (Z.lt_ge_cases (len saddr) 16) as [Hl'|Hl'].
    { rewrite parseAddr_short in H by (right; now split). discriminate H. }
    rewrite parseAddr_ipv4 in H by assumption.
    pose proof (DecodeString_length (take 8 (drop 8 saddr))) as Hd.
    rewrite length_take in Hd
      by (rewrite length_drop; unfold len in Hl'; lia).
    set (r := hex.DecodeString (take 8 (drop 8 saddr))) in *.
    cbv zeta in H. injection H as <- _. split; [|discriminate].
    intros E. exfalso. revert E. apply IP_String_nonempty. lia.
  - rewrite parseAddr_unsupported in H by assumption.
    injection H as <- _. split; reflexivity.
Qed.

Lemma parseAddr_bytes pp hx rest bs w :
  String.length pp = 4%nat -> String.length hx = 8%nat ->
  hex.DecodeString hx = (bs, None) ->
  parseAddr ("0200" ++ pp ++ hx ++ rest) w = Ok (net.IP_String ip6String bs, w).
Proof.
  intros Hpp Hhx Hd.
  assert (L : String.length ("0200" ++ pp) = 8%nat)
    by (rewrite length_app_s, Hpp; reflexivity).
  pose proof (drop_app_length ("0200" ++ pp) (hx ++ rest)) as D.
  rewrite L, app_assoc_s in D.
  pose proof (take_app_length hx rest) as T. rewrite Hhx in T.
  rewrite parseAddr_ipv4.
  - rewrite D, T. cbv zeta. now rewrite Hd.
  - apply HasPrefix_app.
  - rewrite !len_app. unfold len. rewrite Hpp, Hhx. cbn. lia.
Qed.

(** ** Hex text of bytes *)

Lemma fromHexChar_hexDigit n :
  (n < 16)%N -> hex.fromHexChar (net.hexDigit n) = Some n.
Proof.
  intros H.
  assert (A : forallb
                (fun m => match hex.fromHexChar (net.hexDigit m) with
                          | Some k => N.eqb k m
                          | None => false
                          end)
                (List.map N.of_nat (List.seq 0 16)) = true)
    by (vm_compute; reflexivity).
  rewrite forallb_forall in A. specialize (A n).
  destruct (hex.fromHexChar (net.hexDigit n)) as [k|].
  - f_equal. apply N.eqb_eq, A. apply in_map_iff.
    exists (N.to_nat n). split; [apply N2Nat.id | apply in_seq; lia].
  - discriminate A. apply in_map_iff.
    exists (N.to_nat n). split; [apply N2Nat.id | apply in_seq; lia].
Qed.

Lemma nibbles_join (x : N) :
  N.lor (N.shiftl (N.shiftr x 4) 4) (N.land x 15) = x.
Proof.
  apply N.bits_inj. intros n. rewrite N.lor_spec, N.land_spec.
  change 15%N with (N.ones 4).
  destruct (N.lt_ge_cases n 4) as [H|H].
  - rewrite N.shiftl_spec_low by exact H.
    rewrite N.ones_spec_low by exact H. cbn [orb]. apply andb_true_r.
  - rewrite N.shiftl_spec_high' by exact H.
    rewrite N.shiftr_spec', N.ones_spec_high by exact H.
    rewrite N.sub_add by exact H. rewrite andb_false_r. apply orb_false_r.
Qed.

(** Decoding the hex text of bytes gives the bytes back. *)
Lemma DecodeString_hexString (bs : list N) :
  Forall (fun x => (x < 256)%N) bs ->
  hex.DecodeString (net.hexString bs) = (bs, None).
Proof.
  induction 1 as [|x bs Hx _ IH]; [reflexivity|].
  cbn [net.hexString hex.DecodeString].
  rewrite !fromHexChar_hexDigit, IH.
  - cbn [fst snd]. now rewrite nibbles_join.
  - change 15%N with (N.ones 4). rewrite N.land_ones.
    apply N.mod_lt. discriminate.
  - rewrite N.shiftr_div_pow2. apply N.Div0.div_lt_upper_bound.
    change (2 ^ 4 * 16)%N with 256%N. exact Hx.
Qed.

Lemma length_hexString bs : String.length (net.hexString bs) = (2 * length bs)%nat.
Proof. induction bs as [|x bs IH]; cbn [net.hexString String.length length]; lia. Qed.

(** X13.  Decoding is the inverse of hex encoding: an address text made
    of the family [0200], any four bytes for the port, the hex text of
    four bytes [a b c d] and anything after it decodes to the dotted
    address [a.b.c.d], and nothing is logged.  The same holds for any
    eight bytes of text that [hex.DecodeString] reads as [a b c d] (the
    kernel writes the digits in upper case). *)
Theorem parseAddr_decodes_octets pp a b c d rest w :
  String.length pp = 4%nat ->
  ((a < 256)%N -> (b < 256)%N -> (c < 256)%N -> (d < 256)%N ->
   parseAddr ("0200" ++ pp ++ net.hexString [a; b; c; d] ++ rest) w
   = Ok (dotted a b c d, w)) /\
  (forall hx,
      String.length hx = 8%nat ->
      hex.DecodeString hx = ([a; b; c; d], None) ->
      parseAddr ("0200" ++ pp ++ hx ++ rest) w = Ok (dotted a b c d, w)).
Proof.
  intros Hpp. split.
  - intros Ha Hb Hc Hd.
    apply (parseAddr_bytes pp (net.hexString [a; b; c; d]) rest [a; b; c; d] w Hpp).
    + reflexivity.
    + apply DecodeString_hexString. repeat constructor; assumption.
  - intros hx Hl Hx. exact (parseAddr_bytes pp hx rest [a; b; c; d] w Hpp Hl Hx).
Qed.

End Decoder.

Lemma parseAddr_panics_iff_witness :
  @parseAddr fakes "0200005" w0 = Panic.
Proof.
  apply (proj2 (@parseAddr_panics_iff fakes "0200005" w0)).
  right. split; [reflexivity | vm_compute; reflexivity].
Defined.

Lemma parseAddr_empty_iff_unsupported_witness :
  Go.HasPrefix "0A00005000000000000000000000000000000000" "0200" = false.
Proof.
  apply (proj1 (@parseAddr_empty_iff_unsupported fakes
                  "0A00005000000000000000000000000000000000" w0 EmptyString w0
                  eq_refl)).
  reflexivity.
Defined.

Lemma parseAddr_decodes_octets_witness :
  @parseAddr fakes ("0200" ++ "0050" ++ net.hexString [192; 168; 1; 20]%N ++ "0000000000000000") w0
  = Ok ("192.168.1.20", w0) /\
  @parseAddr fakes ("0200" ++ "0050" ++ "C0A80114" ++ "0000000000000000") w0
  = Ok ("192.168.1.20", w0).
Proof.
  destruct (@parseAddr_decodes_octets fakes "0050" 192 168 1 20
              "0000000000000000" w0 eq_refl) as (H1 & H2).
  split.
  - apply H1; reflexivity.
  - apply (H2 "C0A80114"); reflexivity.
Defined.

(** * Further properties: SOCKADDR messages *)

Section SockaddrMessages.

Context {collab : Collaborators}.
Import Go.

Lemma AddMessage_SOCKADDR_value g am w v ip w1 :
  Type_ am = SOCKADDR ->
  extract "saddr=" SOCKADDR_LENGTH (Data am) = Some v ->
  parseAddr v w = Ok (ip, w1) ->
  AddMessage g am w =
    let l := lookupHost ip (set_gotSaddr true (set_Msgs (Msgs g ++ [am])%list g)) w1 in
    Ok (snd (fst l), snd l).
Proof.
  intros Ht Hv Hp. rewrite AddMessage_SOCKADDR_extract by exact Ht.
  cbv zeta. rewrite Hv, Hp. reflexivity.
Qed.

(** X14.  [AddMessage] panics exactly on a SOCKADDR message whose
    extracted address text is too short for [parseAddr]: fewer than 4
    bytes, or fewer than 16 bytes that start with [0200].  On every other
    message it returns. *)
Theorem AddMessage_panics_iff g am w :
  (AddMessage g am w = Panic <->
   Type_ am = SOCKADDR /\
   exists saddr,
     extract "saddr=" SOCKADDR_LENGTH (Data am) = Some saddr /\ shortAddr saddr) /\
  (AddMessage g am w <> Panic -> exists g' w', AddMessage g am w = Ok (g', w')).
Proof.
  split.
  - split.
    + intros H.
      destruct (Z.eq_dec (Type_ am) SOCKADDR) as [Ht|Ht].
      2:{ destruct (AddMessage_returns g am w Ht) as (g' & w' & E).
          rewrite E in H. discriminate H. }
      split; [exact Ht|].
      rewrite AddMessage_SOCKADDR_extract in H by exact Ht. cbv zeta in H.
      destruct (extract "saddr=" SOCKADDR_LENGTH (Data am)) as [saddr|];
        [|discriminate H].
      exists saddr. split; [reflexivity|].
      destruct (parseAddr_cases saddr w) as [Hs|(ip & w1 & E)]; [exact Hs|].
      rewrite E in H. discriminate H.
    + intros (Ht & saddr & Hv & Hs).
      rewrite AddMessage_SOCKADDR_extract by exact Ht. cbv zeta.
      rewrite Hv, parseAddr_short by exact Hs. reflexivity.
  - intros H. destruct (AddMessage g am w) as [[g' w']| |] eqn:E.
    + eauto.
    + contradiction.
    + now apply AddMessage_fuel in E.
Qed.

(** X15.  For a SOCKADDR message whose address is of a family other than
    [0200] (an IPv6 or a Unix-domain address), [AddMessage] still sets
    [gotSaddr] and still asks the DNS cache, for the empty address; if
    that lookup succeeds the host is recorded under the empty key. *)
Theorem sockaddr_unsupported_family_lookup g am w pre v rest :
  Type_ am = SOCKADDR ->
  Data am = (pre ++ "saddr=" ++ v ++ " " ++ rest)%string ->
  Index (pre ++ "saddr=") "saddr=" = len pre ->
  IndexByte v spaceChar = -1 ->
  4 <= len v -> HasPrefix v "0200" = false ->
  let r := cGet EmptyString (env w) in
  exists g' w',
    AddMessage g am w = Ok (g', w') /\
    gotSaddr g' = true /\
    cGetCalls w' = (cGetCalls w ++ [EmptyString])%list /\
    (snd (fst r) = true ->
       gotDNS g' = true /\ DnsMap g' = <[EmptyString := fst (fst r)]> (DnsMap g)) /\
    (snd (fst r) = false -> gotDNS g' = gotDNS g /\ DnsMap g' = DnsMap g).
Proof.
  intros Ht Hd Hpre Hv Hl Hp r.
  rewrite (AddMessage_SOCKADDR_value g am w v EmptyString w Ht).
  - cbv zeta. unfold lookupHost. cbn [fst snd]. fold r.
    eexists _, _. split; [reflexivity|].
    destruct (snd (fst r)); cbn;
      (split; [reflexivity|]; split; [reflexivity|];
       split; intros Hr; try discriminate Hr; split; reflexivity).
  - rewrite Hd. now apply extract_spaced.
  - now apply parseAddr_unsupported.
Qed.

(** X16.  An address value that runs to the end of the text and is longer
    than 34 bytes is dropped: the SOCKADDR message is stored, and nothing
    else happens (no flag, no lookup, no log line). *)
Theorem sockaddr_unterminated_bound g am w pre v :
  Type_ am = SOCKADDR ->
  Data am = (pre ++ "saddr=" ++ v)%string ->
  Index (pre ++ "saddr=") "saddr=" = len pre ->
  IndexByte v spaceChar = -1 ->
  SOCKADDR_LENGTH < len v ->
  AddMessage g am w = Ok (set_Msgs (Msgs g ++ [am])%list g, w).
Proof.
  intros Ht Hd Hpre Hv Hl.
  rewrite AddMessage_SOCKADDR_extract by exact Ht. cbv zeta.
  rewrite Hd, extract_last by assumption.
  destruct (Z.gtb_spec (len v) SOCKADDR_LENGTH); [reflexivity | lia].
Qed.

(** X17.  The whole path of an IPv4 SOCKADDR message: for an address text
    [0200], four bytes of port, eight bytes of hex that read as the bytes
    [a b c d], and any further bytes up to the next space, [AddMessage]
    returns, sets [gotSaddr], logs nothing, and makes one lookup, for
    [a.b.c.d]; if it succeeds the host is recorded under that address and
    [gotDNS] is set, otherwise the [DnsMap] and [gotDNS] stay as they
    were. *)
Theorem sockaddr_ipv4_lookup g am w pre pp hx tail rest a b c d :
  Type_ am = SOCKADDR ->
  Data am = (pre ++ "saddr=" ++ ("0200" ++ pp ++ hx ++ tail) ++ " " ++ rest)%string ->
  Index (pre ++ "saddr=") "saddr=" = len pre ->
  IndexByte ("0200" ++ pp ++ hx ++ tail) spaceChar = -1 ->
  String.length pp = 4%nat -> String.length hx = 8%nat ->
  hex.DecodeString hx = ([a; b; c; d], None) ->
  let ip := dotted a b c d in
  let r := cGet ip (env w) in
  exists g' w',
    AddMessage g am w = Ok (g', w') /\
    gotSaddr g' = true /\
    cGetCalls w' = (cGetCalls w ++ [ip])%list /\
    el w' = el w /\ env w' = snd r /\
    (snd (fst r) = true ->
       gotDNS g' = true /\ DnsMap g' = <[ip := fst (fst r)]> (DnsMap g)) /\
    (snd (fst r) = false -> gotDNS g' = gotDNS g /\ DnsMap g' = DnsMap g).
Proof.
  intros Ht Hd Hpre Hv Hpp Hhx Hdec ip r.
  rewrite (AddMessage_SOCKADDR_value g am w ("0200" ++ pp ++ hx ++ tail) ip w Ht).
  - cbv zeta. unfold lookupHost. cbn [fst snd]. fold r.
    eexists _, _. split; [reflexivity|].
    destruct (snd (fst r)); cbn;
      (split; [reflexivity|]; split; [reflexivity|];
       split; [reflexivity|]; split; [reflexivity|];
       split; intros Hr; try discriminate Hr; split; reflexivity).
  - rewrite Hd. now apply extract_spaced.
  - exact (parseAddr_bytes pp hx tail [a; b; c; d] w Hpp Hhx Hdec).
Qed.

End SockaddrMessages.

Lemma AddMessage_panics_iff_witness :
  @AddMessage fakes g0 (msg SOCKADDR "saddr=0200") w0 = Panic.
Proof.
  apply (proj2 (proj1 (@AddMessage_panics_iff fakes g0 (msg SOCKADDR "saddr=0200") w0))).
  split; [reflexivity|]. exists "0200". split; [reflexivity|].
  right. split; [reflexivity | vm_compute; reflexivity].
Defined.

Lemma sockaddr_unsupported_family_lookup_witness :
  exists g' w',
    @AddMessage fakes g0
      (msg SOCKADDR "saddr=0A000050000000000000000000000000000000000000000100000000 a=b") w0
      = Ok (g', w') /\
    gotSaddr g' = true /\ cGetCalls w' = [EmptyString].
Proof.
  destruct (@sockaddr_unsupported_family_lookup fakes g0
              (msg SOCKADDR "saddr=0A000050000000000000000000000000000000000000000100000000 a=b")
              w0 EmptyString
              "0A000050000000000000000000000000000000000000000100000000" "a=b"
              eq_refl eq_refl eq_refl eq_refl)
    as (g' & w' & Hrun & Hs & Hc & _).
  - vm_compute. discriminate.
  - reflexivity.
  - exists g', w'. repeat split; assumption.
Defined.

Lemma sockaddr_unterminated_bound_witness :
  @AddMessage fakes g0
    (msg SOCKADDR "saddr=0A000050000000000000000000000000000000000000000100000000") w0
  = Ok (set_Msgs
          [msg SOCKADDR "saddr=0A000050000000000000000000000000000000000000000100000000"]
          g0, w0).
Proof.
  apply (@sockaddr_unterminated_bound fakes g0 _ w0 EmptyString
           "0A000050000000000000000000000000000000000000000100000000").
  - reflexivity.
  - reflexivity.
  - reflexivity.
  - reflexivity.
  - vm_compute. reflexivity.
Defined.

Lemma sockaddr_ipv4_lookup_witness :
  exists g' w',
    @AddMessage fakes g0
      (msg SOCKADDR "saddr=020000507F0000010000000000000000 a=b") w0 = Ok (g', w') /\
    cGetCalls w' = ["127.0.0.1"] /\
    DnsMap g' = <["127.0.0.1" := "localhost"]> ∅.
Proof.
  destruct (@sockaddr_ipv4_lookup fakes g0
              (msg SOCKADDR "saddr=020000507F0000010000000000000000 a=b") w0
              EmptyString "0050" "7F000001" "0000000000000000" "a=b" 127 0 0 1
              eq_refl eq_refl eq_refl eq_refl eq_refl eq_refl eq_refl)
    as (g' & w' & Hrun & _ & Hc & _ & _ & Hdns & _).
  exists g', w'. split; [exact Hrun|]. split; [exact Hc|].
  exact (proj2 (Hdns eq_refl)).
Defined.

(** * Further properties: over a whole group *)

Section GroupRuns.

Context {collab : Collaborators}.
Import Go.

Lemma uidText_cut_empty fs :
  uidText fs (Tail EmptyString) = EmptyString -> fs = [].
Proof.
  destruct fs as [|[p v] fs]; [reflexivity|]. cbn [uidText fst snd].
  intros H. apply (f_equal String.length) in H.
  rewrite !length_app_s in H. cbn in H. lia.
Qed.

Lemma uidText_trailing_nonempty fs t :
  0 < len t -> 0 < len (uidText fs (Tail t)).
Proof.
  intros Ht. destruct fs as [|[q u] fs]; cbn [uidText endText fst snd];
    [exact Ht|].
  rewrite !len_app. change (len "uid=") with 4. change (len " ") with 1.
  pose proof (len_nonneg q). pose proof (len_nonneg u).
  pose proof (len_nonneg (uidText fs (Tail t))). lia.
Qed.

(** The loop of [mapUids] on fields followed by a rejected last field does
    what it does on the fields alone. *)
Lemma mapUids_loop_cut fs p v :
  Forall fieldOk fs ->
  Index (p ++ "uid=") "uid=" = len p ->
  IndexByte v spaceChar = -1 ->
  5 < len v ->
  forall fuel fuel' g w,
    (String.length (uidText fs (Tail (p ++ "uid=" ++ v))) < fuel)%nat ->
    (String.length (uidText fs (Tail EmptyString)) < fuel')%nat ->
    mapUids_loop fuel (uidText fs (Tail (p ++ "uid=" ++ v))) g w =
    mapUids_loop fuel' (uidText fs (Tail EmptyString)) g w.
Proof.
  intros Hfs Hp Hv Hl.
  assert (Hend : forall fuel g w,
             (0 < fuel)%nat ->
             mapUids_loop fuel (p ++ "uid=" ++ v) g w = Ok (g, w)).
  { intros [|fuel] g w Hf; [lia|]. rewrite mapUids_loop_S.
    rewrite extract_last by assumption.
    destruct (Z.gtb_spec (len v) 5); [reflexivity | lia]. }
  induction Hfs as [|[q u] fs [Hq Hu] Hfs IH]; intros fuel fuel' g w Hf Hf';
    (destruct fuel as [|fuel]; [lia|]); (destruct fuel' as [|fuel']; [lia|]);
    cbn [uidText endText fst snd] in *.
  - rewrite Hend by lia. rewrite mapUids_loop_S. reflexivity.
  - rewrite !mapUids_loop_S. rewrite !extract_spaced by assumption. cbv zeta.
    set (T := uidText fs (Tail (p ++ "uid=" ++ v))) in *.
    set (R := uidText fs (Tail EmptyString)) in *.
    rewrite (Index_app q "uid=" (u ++ " " ++ T)) by exact Hq.
    rewrite (Index_app q "uid=" (u ++ " " ++ R)) by exact Hq.
    assert (HlenT : len (q ++ "uid=" ++ u ++ " " ++ T)
                    = len q + 4 + len u + 1 + len T)
      by (rewrite !len_app; change (len "uid=") with 4;
          change (len " ") with 1; lia).
    assert (HlenR : len (q ++ "uid=" ++ u ++ " " ++ R)
                    = len q + 4 + len u + 1 + len R)
      by (rewrite !len_app; change (len "uid=") with 4;
          change (len " ") with 1; lia).
    rewrite HlenT, HlenR. rewrite !drop_field.
    pose proof (len_nonneg R) as HR0.
    assert (HT : 0 < len T).
    { subst T. apply uidText_trailing_nonempty.
      rewrite !len_app. change (len "uid=") with 4.
      pose proof (len_nonneg p). pose proof (len_nonneg v). lia. }
    destruct (Z.geb_spec (len q + 4 + len u + 1) (len q + 4 + len u + 1 + len T));
      [lia|].
    rewrite !length_app_s in Hf, Hf'. cbn [String.length] in Hf, Hf'.
    destruct (Z.geb_spec (len q + 4 + len u + 1) (len q + 4 + len u + 1 + len R))
      as [Hge|Hlt].
    + assert (E : R = EmptyString) by (apply len_0_empty; lia).
      subst R. apply uidText_cut_empty in E. subst fs.
      subst T. cbn [uidText endText]. rewrite Hend.
      * now destruct (recordUid u g w).
      * cbn [uidText endText] in Hf. lia.
    + apply IH; lia.
Qed.

(** X18.  A uid value that runs to the end of the text and is longer than
    5 bytes is not recorded, wherever it stands (the [auid=4294967295] at
    the end of [uid=0 auid=4294967295], say): for a message made of
    uid-bearing fields followed by such a last field, [mapUids] does
    exactly what it does on the message cut before that field, so the
    earlier values are recorded and nothing is done for the last one; the
    keys of the [UidMap] after [AddMessage] are the old keys plus the
    earlier values, and when there is no earlier field the [UidMap] and
    everything outside the group are left as they were. *)
Theorem uid_unterminated_bound fs p v g am w :
  scansUids (Type_ am) = true ->
  Data am = uidText fs (Tail (p ++ "uid=" ++ v)) ->
  Forall fieldOk fs ->
  Index (p ++ "uid=") "uid=" = len p ->
  IndexByte v spaceChar = -1 ->
  5 < len v ->
  (forall g1 cut,
      Data cut = uidText fs (Tail EmptyString) ->
      mapUids g1 am w = mapUids g1 cut w) /\
  exists g' w',
    AddMessage g am w = Ok (g', w') /\
    dom (UidMap g') = dom (UidMap g) ∪ list_to_set (map snd fs) /\
    (fs = [] -> UidMap g' = UidMap g /\ w' = w).
Proof.
  intros Ht Hd Hfs Hp Hv Hl.
  assert (Hcut : forall g1 fuel',
             (String.length (uidText fs (Tail EmptyString)) < fuel')%nat ->
             mapUids g1 am w
             = mapUids_loop fuel' (uidText fs (Tail EmptyString)) g1 w).
  { intros g1 fuel' Hf. unfold mapUids. rewrite Hd.
    apply mapUids_loop_cut; try assumption. lia. }
  split.
  { intros g1 cut Hc. rewrite (Hcut g1 (S (String.length (Data cut)))).
    - unfold mapUids. now rewrite Hc.
    - rewrite Hc. lia. }
  assert (Hloop : forall g1, UidMap g1 = UidMap g ->
            exists g' w', mapUids g1 am w = Ok (g', w') /\
              dom (UidMap g') = dom (UidMap g) ∪ list_to_set (map snd fs) /\
              (fs = [] -> UidMap g' = UidMap g /\ w' = w)).
  { intros g1 Hg1.
    rewrite (Hcut g1 (S (String.length (uidText fs (Tail EmptyString))))) by lia.
    destruct (mapUids_loop_fields fs (Tail EmptyString) Hfs eq_refl
                (S (String.length (uidText fs (Tail EmptyString)))) g1 w)
      as (g' & w' & Hrun & Hdom); [lia|].
    exists g', w'. split; [exact Hrun|]. split.
    - rewrite Hdom, Hg1. cbn [endKeys]. now rewrite app_nil_r.
    - intros ->. cbn [uidText endText] in Hrun. rewrite mapUids_loop_S in Hrun.
      cbn in Hrun. injection Hrun as <- <-. now split. }
  destruct (Z.eq_dec (Type_ am) SYSCALL) as [Hs|Hs].
  - rewrite AddMessage_SYSCALL by exact Hs.
    apply Hloop. now destruct (extract "syscall=" 5 (Data am)).
  - rewrite AddMessage_other by assumption. now apply Hloop.
Qed.

Lemma AddMessage_syscallAfter g am w g' w' :
  AddMessage g am w = Ok (g', w') -> Syscall g' = syscallAfter (Syscall g) am.
Proof.
  unfold syscallAfter.
  destruct (type_cases (Type_ am)) as [Ht | [Ht | [Ht | [Ht Hn]]]].
  - rewrite AddMessage_stored by exact Ht. intros [= <- <-].
    destruct Ht as [-> | ->]; reflexivity.
  - rewrite AddMessage_SOCKADDR_extract by exact Ht. rewrite Ht. cbv zeta.
    destruct (extract "saddr=" SOCKADDR_LENGTH (Data am)) as [saddr|];
      [|now intros [= <- <-]].
    destruct (parseAddr saddr w) as [[ip w1]| |]; cbn [res_bind]; try discriminate.
    unfold lookupHost. cbn [fst snd]. intros [= <- <-].
    now destruct (snd (fst (cGet ip (env w1)))).
  - rewrite AddMessage_SYSCALL by exact Ht. rewrite Ht.
    set (g1 := match extract "syscall=" 5 (Data am) with
               | None => _ | Some v => _ end).
    destruct (mapUids_total g1 am w) as (g2 & w2 & -> & _ & Hfr).
    apply uid_frame_fields in Hfr as (_ & _ & _ & _ & _ & F6 & _).
    intros [= <- <-]. rewrite F6. subst g1.
    now destruct (extract "syscall=" 5 (Data am)).
  - rewrite AddMessage_other by assumption.
    destruct (mapUids_total (set_Msgs (Msgs g ++ [am])%list g) am w)
      as (g2 & w2 & -> & _ & Hfr).
    apply uid_frame_fields in Hfr as (_ & _ & _ & _ & _ & F6 & _).
    intros [= <- <-]. rewrite F6.
    destruct (Z.eqb_spec (Type_ am) SYSCALL); [contradiction | reflexivity].
Qed.

(** X19.  The last write wins: after any sequence of messages the
    [Syscall] field is the value of the last SYSCALL message that had an
    accepted [syscall=] value, or what it was before if there was none. *)
Theorem syscall_last_write_wins ams g w g' w' :
  AddMessages g ams w = Ok (g', w') ->
  Syscall g' = fold_left syscallAfter ams (Syscall g).
Proof.
  revert g w; induction ams as [|am ams IH]; intros g w; cbn [AddMessages fold_left].
  - now intros [= <- <-].
  - destruct (AddMessage g am w) as [[g1 w1]| |] eqn:E; cbn [res_bind fst snd];
      try discriminate.
    intros H. apply IH in H. apply AddMessage_syscallAfter in E.
    now rewrite H, E.
Qed.

Lemma AddMessage_dns_cases g am w g' w' :
  AddMessage g am w = Ok (g', w') ->
  (gotSaddr g' = gotSaddr g /\ gotDNS g' = gotDNS g /\ DnsMap g' = DnsMap g) \/
  (gotSaddr g' = true /\ gotDNS g' = gotDNS g /\ DnsMap g' = DnsMap g) \/
  (gotSaddr g' = true /\ gotDNS g' = true /\
   exists ip host, DnsMap g' = <[ip := host]> (DnsMap g)).
Proof.
  destruct (type_cases (Type_ am)) as [Ht | [Ht | [Ht | [Ht Hn]]]].
  - rewrite AddMessage_stored by exact Ht. intros [= <- <-]. left. repeat split.
  - rewrite AddMessage_SOCKADDR_extract by exact Ht. cbv zeta.
    destruct (extract "saddr=" SOCKADDR_LENGTH (Data am)) as [saddr|].
    2:{ intros [= <- <-]. left. repeat split. }
    destruct (parseAddr saddr w) as [[ip w1]| |]; cbn [res_bind]; try discriminate.
    unfold lookupHost. cbn [fst snd]. intros [= <- <-]. right.
    destruct (snd (fst (cGet ip (env w1)))); [right | left]; cbn; repeat split.
    eauto.
  - rewrite AddMessage_SYSCALL by exact Ht.
    set (g1 := match extract "syscall=" 5 (Data am) with
               | None => _ | Some v => _ end).
    destruct (mapUids_total g1 am w) as (g2 & w2 & -> & _ & Hfr).
    apply uid_frame_fields in Hfr as (_ & _ & _ & _ & F5 & _ & F7 & F8).
    intros [= <- <-]. left. rewrite F5, F7, F8. subst g1.
    destruct (extract "syscall=" 5 (Data am)); repeat split.
  - rewrite AddMessage_other by assumption.
    destruct (mapUids_total (set_Msgs (Msgs g ++ [am])%list g) am w)
      as (g2 & w2 & -> & _ & Hfr).
    apply uid_frame_fields in Hfr as (_ & _ & _ & _ & F5 & _ & F7 & F8).
    intros [= <- <-]. left. rewrite F5, F7, F8. repeat split.
Qed.

Lemma AddMessages_dns_inv ams g w g' w' :
  AddMessages g ams w = Ok (g', w') ->
  ((gotSaddr g = true -> gotSaddr g' = true) /\
   (gotDNS g = true -> gotDNS g' = true) /\
   dom (DnsMap g) ⊆ dom (DnsMap g')) /\
  ((gotDNS g = true -> gotSaddr g = true) ->
   (gotDNS g = true <-> DnsMap g <> ∅) ->
   (gotDNS g' = true -> gotSaddr g' = true) /\
   (gotDNS g' = true <-> DnsMap g' <> ∅)).
Proof.
  revert g w; induction ams as [|am ams IH]; intros g w; cbn [AddMessages].
  - intros [= <- <-]. split; [repeat split; auto | auto].
  - destruct (AddMessage g am w) as [[g1 w1]| |] eqn:E; cbn [res_bind fst snd];
      try discriminate.
    intros H. apply IH in H as ((M1 & M2 & M3) & I).
    apply AddMessage_dns_cases in E
      as [(E1 & E2 & E3) | [(E1 & E2 & E3) | (E1 & E2 & ip & host & E3)]].
    + rewrite E1, E2, E3 in *. split; [repeat split; assumption | exact I].
    + rewrite E2, E3 in *. split.
      * repeat split; auto.
      * intros _ J. apply I; [intros _; exact E1 | exact J].
    + split.
      * refine (conj _ (conj _ _)); auto.
        etransitivity; [|exact M3]. rewrite E3, dom_insert. set_solver.
      * intros _ _. apply I; [intros _; exact E1|].
        split; [intros _; rewrite E3; apply insert_non_empty | intros _; exact E2].
Qed.

(** X20.  The DNS flags tell the truth about the [DnsMap]: in a group
    created by [NewAuditMessageGroup] and fed any messages, [gotDNS] is set
    exactly when the [DnsMap] has an entry, and it is never set without
    [gotSaddr]. *)
Theorem dns_flags_match_map am ams w g' w' :
  runGroup am ams w = Ok (g', w') ->
  (gotDNS g' = true <-> DnsMap g' <> ∅) /\
  (gotDNS g' = true -> gotSaddr g' = true).
Proof.
  unfold runGroup, NewAuditMessageGroup. intros H.
  assert (H' : AddMessages
                 (mkAuditMessageGroup (Seq am) (AuditTime am)
                    (now w + COMPLETE_AFTER) [] ∅ ∅ EmptyString false false)
                 (am :: ams) w = Ok (g', w')) by exact H.
  apply AddMessages_dns_inv in H' as (_ & I). cbn [gotDNS gotSaddr DnsMap] in I.
  destruct I as (I1 & I2).
  - discriminate.
  - split; [discriminate | intros J; now elim J].
  - split; assumption.
Qed.

(** X21.  Nothing is ever taken back from a group: over any sequence of
    messages a flag that is set stays set, and the [DnsMap] keeps all its
    addresses. *)
Theorem dns_enrichment_monotone ams g w g' w' :
  AddMessages g ams w = Ok (g', w') ->
  (gotSaddr g = true -> gotSaddr g' = true) /\
  (gotDNS g = true -> gotDNS g' = true) /\
  dom (DnsMap g) ⊆ dom (DnsMap g').
Proof. intros H. now apply AddMessages_dns_inv in H. Qed.

End GroupRuns.

Lemma uid_unterminated_bound_witness :
  exists g' w',
    @AddMessage fakes g0 (msg SYSCALL "uid=0 auid=4294967295") w0 = Ok (g', w') /\
    dom (UidMap g') = ({["0"]} : gset string).
Proof.
  destruct (@uid_unterminated_bound fakes [(EmptyString, "0")] "a" "4294967295"
              g0 (msg SYSCALL "uid=0 auid=4294967295") w0)
    as (_ & g' & w' & Hrun & Hdom & _).
  - reflexivity.
  - reflexivity.
  - repeat constructor.
  - reflexivity.
  - reflexivity.
  - vm_compute. reflexivity.
  - exists g', w'. split; [exact Hrun|].
    rewrite Hdom. cbn. set_solver.
Defined.

Lemma syscall_last_write_wins_witness :
  exists g' w',
    @AddMessages fakes g0
      [msg SYSCALL "syscall=2 a=b"; msg SYSCALL "syscall=59 a=b";
       msg CWD "syscall=1"; msg SYSCALL "syscall=123456"] w0 = Ok (g', w') /\
    Syscall g' = "59".
Proof.
  destruct (@AddMessages fakes g0
              [msg SYSCALL "syscall=2 a=b"; msg SYSCALL "syscall=59 a=b";
               msg CWD "syscall=1"; msg SYSCALL "syscall=123456"] w0)
    as [[g' w']| |] eqn:E; [| vm_compute in E; discriminate E ..].
  exists g', w'. split; [reflexivity|].
  rewrite (@syscall_last_write_wins fakes _ _ _ _ _ E). reflexivity.
Defined.

Lemma dns_flags_match_map_witness :
  exists g' w',
    @runGroup fakes (msg SOCKADDR "saddr=020000507F0000010000000000000000")
      [msg CWD "cwd=/"] w0 = Ok (g', w') /\
    (gotDNS g' = true <-> DnsMap g' <> ∅) /\
    (gotDNS g' = true -> gotSaddr g' = true).
Proof.
  destruct (@runGroup fakes (msg SOCKADDR "saddr=020000507F0000010000000000000000")
              [msg CWD "cwd=/"] w0)
    as [[g' w']| |] eqn:E; [| vm_compute in E; discriminate E ..].
  exists g', w'. split; [reflexivity|].
  exact (@dns_flags_match_map fakes _ _ _ _ _ E).
Defined.

Lemma dns_enrichment_monotone_witness :
  exists g' w',
    @AddMessages fakes (set_gotSaddr true g0)
      [msg SOCKADDR "no address"; msg CWD "cwd=/"] w0 = Ok (g', w') /\
    gotSaddr g' = true.
Proof.
  destruct (@AddMessages fakes (set_gotSaddr true g0)
              [msg SOCKADDR "no address"; msg CWD "cwd=/"] w0)
    as [[g' w']| |] eqn:E; [| vm_compute in E; discriminate E ..].
  exists g', w'. split; [reflexivity|].
  exact (proj1 (@dns_enrichment_monotone fakes _ _ _ _ _ E) eq_refl).
Defined.
